(** * coda-go-client: the subscription engine, the event registry and the
      query facade of [client/api.go]

    The Go code of [client/api.go] is embedded function by function.
    Pointers to events are locations of a store, channels owned by the
    environment are identifiers, and everything the environment decides
    (the runtime's choice in a [select], the outcome of a websocket or
    HTTP call, whether the peer of a channel is there) is an explicit
    argument of the function that depends on it. *)

From Stdlib Require Import ZArith String Ascii.
From stdpp Require Import gmap strings list fin_maps.

Open Scope Z_scope.
Open Scope string_scope.
Open Scope list_scope.

(** ** Go's [strings.Replace] *)

Module strings.

(** [within n]: may one more replacement be made? [None] is Go's
    [n < 0], no limit. *)
Definition within (n : option nat) : bool :=
  match n with
  | None => true
  | Some O => false
  | Some (S _) => true
  end.

Definition spend (n : option nat) : option nat :=
  match n with
  | None => None
  | Some k => Some (Nat.pred k)
  end.

(** Left-to-right scan for the non-overlapping occurrences of a
    non-empty [old]. [skip] counts the bytes of a matched occurrence
    that are still to be dropped. *)
Fixpoint replace_scan (old new : string) (n : option nat) (skip : nat)
         (s : string) {struct s} : string :=
  match s with
  | EmptyString => EmptyString
  | String c s' =>
      match skip with
      | S k => replace_scan old new n k s'
      | O =>
          if within n && String.prefix old s
          then new +:+ replace_scan old new (spend n) (Nat.pred (String.length old)) s'
          else String c (replace_scan old new n O s')
      end
  end.

(** [strings.Replace(s, old, new, n)]. The code calls it with the
    non-empty [old = "http"]; Go's rune-wise insertion for an empty
    [old] is outside this model and [s] is returned as it is. *)
Definition Replace (s old new : string) (n : Z) : string :=
  if decide (old = new) then s
  else if decide (n = 0) then s
  else match old with
       | EmptyString => s
       | String _ _ =>
           replace_scan old new (if decide (n < 0) then None else Some (Z.to_nat n)) O s
       end.

End strings.

(** The first statement of a delivery cycle that uses the endpoint:
    [url := strings.Replace(c.Endpoint, "http", `ws`, -1)]. *)
Definition subscribe_url (Endpoint : string) : string :=
  strings.Replace Endpoint "http" "ws" (-1).

(** The derivation as the specification words it: only a leading
    ["http"] is exchanged for ["ws"], the rest is kept. *)
Definition scheme_prefix_substitution (Endpoint : string) : string :=
  if String.prefix "http" Endpoint
  then "ws" +:+ String.substring 4 (String.length Endpoint - 4) Endpoint
  else Endpoint.

(** ** Data model *)

(** Pointers to events ([*types.Event]) are locations of the store;
    channels whose other end belongs to the environment are names. *)
Definition loc := positive.
Definition chan := nat.

(** Modelled from the spec: package [types] is outside the source tree.
    The records below have the fields that the composite literals and
    the field accesses of [api.go] name; Go's field [Type] is written
    with a prefix, and [sr_payload] stands for whatever else a decoded
    message carries. *)
Record SubscriptionResponse := {
  sr_Type : string;
  sr_payload : string
}.

(** The zero value of [var m types.SubscriptionResponse]. *)
Definition SubscriptionResponse_zero : SubscriptionResponse :=
  {| sr_Type := ""; sr_payload := "" |}.

Record ResponseData := {
  Host : string;
  rd_Type : string;
  Data : SubscriptionResponse
}.

Record SubscribeQuery := { sq_Query : string }.

Record SubscribeDataQuery := {
  sdq_Type : string;
  Id : string;
  Payload : SubscribeQuery
}.

Record Event := {
  Response : chan;
  ev_Type : string;
  Query : string;
  Unsubscribe : chan;
  Subscribed : bool;
  Count : Z
}.

(** [Hub] is declared in another file of the package; the engine uses
    its one field [SubscriptionData]. *)
Record Hub := { SubscriptionData : chan }.

Record HttpClient := { Timeout : Z }.

(** [time.Second], in nanoseconds. *)
Definition Second : Z := 1000000000.

(** The client. [hub] is a pointer that may be nil. *)
Record Client := {
  SubscriptionEvents : gmap string loc;
  httpClient : HttpClient;
  Endpoint : string;
  hub : option Hub
}.

(** The store: the events that pointers lead to, and how many channels
    [make] has handed out. *)
Record Store := {
  events : gmap loc Event;
  chans : nat
}.

Definition make_chan (σ : Store) : chan * Store :=
  (chans σ, {| events := events σ; chans := S (chans σ) |}).

(** [&types.Event{...}]: a new object at a location not in use. *)
Definition alloc (ev : Event) (σ : Store) : loc * Store :=
  let p := fresh (dom (events σ)) in
  (p, {| events := <[p := ev]> (events σ); chans := chans σ |}).

Definition with_events (c : Client) (m : gmap string loc) : Client :=
  {| SubscriptionEvents := m; httpClient := httpClient c;
     Endpoint := Endpoint c; hub := hub c |}.

(** How a call ends: with a value, in [os.Exit(1)] after
    [log.Fatalln], in a panic, or blocked for ever. *)
Inductive Outcome (A : Type) :=
| Done (a : A)
| Exits
| Panics
| Blocks.
Arguments Done {A} a.
Arguments Exits {A}.
Arguments Panics {A}.
Arguments Blocks {A}.

Section Client.

#[local] Set Default Proof Using "Type".

(** What [api.go] takes from the rest of the repository and from the
    libraries it imports, without their code being under [client/api.go]:
    - the three query documents, constants of package [types];
    - [wrap], the reduction to the integer type that package [types]
      gives to [Event.Count] (for Go's [int], two's complement
      wrap-around);
    - the result envelope [AbstractHttpResult] of package [types],
      [removeFromJsonString] of another file of this package, and
      [Decode], what [json.NewDecoder(r).Decode(&ds)] makes of a body:
      the decoded value or the error. *)
Variables NewBlockSubscriptionQuery SyncUpdateSubscriptionQuery
          BlockConfirmationSubscriptionQuery : string.
Variable wrap : Z -> Z.
Variable AbstractHttpResult : Type.
Variable removeFromJsonString : string -> string.
Variable Decode : string -> AbstractHttpResult + string.

(** ** The event registry *)

Definition subscriptionEventsQueries : gmap string string :=
  <["NewBlock" := NewBlockSubscriptionQuery]>
  (<["SyncUpdate" := SyncUpdateSubscriptionQuery]>
  (<["BlockConfirmation" := BlockConfirmationSubscriptionQuery]> ∅)).

(** Indexing a Go map with a key it does not hold gives the zero value. *)
Definition index_or_zero (m : gmap string string) (k : string) : string :=
  default "" (m !! k).

Definition createEvent (t : string) (σ : Store) : loc * Store :=
  let '(response, σ1) := make_chan σ in
  let '(unsubscribe, σ2) := make_chan σ1 in
  alloc {| Response := response;
           ev_Type := t;
           Query := index_or_zero subscriptionEventsQueries t;
           Unsubscribe := unsubscribe;
           Subscribed := false;
           Count := 0 |} σ2.

Definition getEvent (t : string) (c : Client) (σ : Store) : loc * Client * Store :=
  match SubscriptionEvents c !! t with
  | Some event => (event, c, σ)
  | None =>
      let '(event, σ') := createEvent t σ in
      (event, with_events c (<[t := event]> (SubscriptionEvents c)), σ')
  end.

(** The loop of [NewClient] and [NewClientWith] over [eventsIt]. *)
Fixpoint makeSubEvents (eventsIt : list string) (subEvents : gmap string loc)
         (σ : Store) : gmap string loc * Store :=
  match eventsIt with
  | [] => (subEvents, σ)
  | item :: rest =>
      let '(event, σ') := createEvent item σ in
      makeSubEvents rest (<[item := event]> subEvents) σ'
  end.

Definition NewClientWith (client : HttpClient) (endpoint : string)
           (hub : option Hub) (eventsIt : list string) (σ : Store) : Client * Store :=
  let '(subEvents, σ') := makeSubEvents eventsIt ∅ σ in
  ({| SubscriptionEvents := subEvents; httpClient := client;
      Endpoint := endpoint; hub := hub |}, σ').

Definition NewClient (endpoint : string) (hub : option Hub)
           (eventsIt : list string) (σ : Store) : Client * Store :=
  NewClientWith {| Timeout := 5 * Second |} endpoint hub eventsIt σ.

(** The registry as this file builds it: every entry leads to an event
    of the store that has the entry's key as its type and the query
    document of that key. *)
Definition registry_ok (m : gmap string loc) (σ : Store) : Prop :=
  ∀ t p, m !! t = Some p →
    ∃ ev, events σ !! p = Some ev ∧ ev_Type ev = t ∧
          Query ev = index_or_zero subscriptionEventsQueries t.

(** ** The subscription engine *)

(** What the engine does that the outside can see, in order. A channel
    operation is recorded when it completes. *)
Inductive Effect :=
| Log (line : string)
| SignalNotify
| Dial (url protocol origin : string)
| JSONSend (d : SubscribeDataQuery)
| JSONReceive
| ConnClose
| ChanSend (ch : chan) (v : ResponseData)
| UnsubscribeRecv (ch : chan)
| UnsubscribeSend (ch : chan) (v : bool)
| Sleep (d : Z).

(** The three communications of the [select]. *)
Inductive Branch := BDefault | BUnsubscribe | BDone.

(** Go's [select]: [default] runs when no communication can proceed;
    when several can, the runtime picks one of them, whatever the order
    of the cases in the text. [coin] is that pick. *)
Definition select (unsubscribe_ready ctx_done coin : bool) : Branch :=
  match unsubscribe_ready, ctx_done with
  | false, false => BDefault
  | true, false => BUnsubscribe
  | false, true => BDone
  | true, true => if coin then BUnsubscribe else BDone
  end.

(** What becomes of a send on a channel that the environment reads:
    a receiver takes the value, or none ever comes and the sender stays
    blocked, or the channel was closed and the send panics. *)
Inductive Peer := Receives | Absent | ClosedChan.

(** The environment of one iteration of the loop. [recv_msg] is what
    [m] holds after [websocket.JSON.Receive(conn, &m)], error or not. *)
Record Cycle := {
  unsubscribe_ready : bool;
  ctx_done : bool;
  coin : bool;
  dial_err : option string;
  send_err : option string;
  recv_msg : SubscriptionResponse;
  recv_err : option string;
  peer : Peer
}.

Inductive Status :=
| Looping      (* at the head of the loop, ready for the next iteration *)
| Returned     (* the function has returned *)
| Blocked      (* waiting for ever on a channel send *)
| Panicked.    (* send on a closed channel *)

Definition set_Subscribed (ev : Event) (b : bool) : Event :=
  {| Response := Response ev; ev_Type := ev_Type ev; Query := Query ev;
     Unsubscribe := Unsubscribe ev; Subscribed := b; Count := Count ev |}.

Definition set_Count (ev : Event) (n : Z) : Event :=
  {| Response := Response ev; ev_Type := ev_Type ev; Query := Query ev;
     Unsubscribe := Unsubscribe ev; Subscribed := Subscribed ev; Count := n |}.

(** [log.Println(a, b)] separates its operands by a space. *)
Definition Println2 (a b : string) : Effect := Log (a +:+ " " +:+ b).

Definition log_err (what : string) (err : option string) : list Effect :=
  match err with
  | Some e => [Println2 what e]
  | None => []
  end.

(** The start message of a cycle. *)
Definition start_message (event : Event) : SubscribeDataQuery :=
  {| sdq_Type := "start"; Id := "1"; Payload := {| sq_Query := Query event |} |}.

(** The channel a delivery goes to. *)
Definition sink (c : Client) (event : Event) : chan :=
  match hub c with
  | None => Response event
  | Some h => SubscriptionData h
  end.

(** A send on a channel of the environment, followed by [rest] when it
    completes. *)
Definition send_then (p : Peer) (done : Effect) (rest : list Effect)
           (after : Status) : list Effect * Status :=
  match p with
  | Receives => (done :: rest, after)
  | Absent => ([], Blocked)
  | ClosedChan => ([], Panicked)
  end.

(** The [default] case: one delivery cycle. *)
Definition cycle (c : Client) (event : Event) (env : Cycle)
  : Event * list Effect * Status :=
  let event1 := set_Subscribed event true in
  let url := subscribe_url (Endpoint c) in
  let origin := "http://localhost/" in
  let opening := [SignalNotify; Log ("connecting to " +:+ url); Dial url "" origin] in
  match dial_err env with
  | Some err => (event1, opening ++ [Println2 "dial:" err], Returned)
  | None =>
      let d2 := start_message event1 in
      let m := recv_msg env in
      let session :=
        [Log ("Subscription Type: " +:+ ev_Type event1); JSONSend d2]
        ++ log_err "websocket.JSON." (send_err env)
        ++ [JSONReceive]
        ++ log_err "Error Receive" (recv_err env)
        ++ [ConnClose; Println2 "Receive type:" (sr_Type m)] in
      let responseData :=
        {| Host := Endpoint c; rd_Type := ev_Type event1; Data := m |} in
      let event2 := set_Count event1 (wrap (Count event1 + 1)) in
      let '(delivery, st) :=
        send_then (peer env) (ChanSend (sink c event2) responseData)
                  [Sleep (1 * Second)] Looping in
      (event2, opening ++ session ++ delivery, st)
  end.

(** The case [<-event.Unsubscribe]. *)
Definition unsubscribe (c : Client) (event : Event) (env : Cycle)
  : Event * list Effect * Status :=
  let '(ack, st) :=
    send_then (peer env) (UnsubscribeSend (Unsubscribe event) true) [] Returned in
  (event,
   [UnsubscribeRecv (Unsubscribe event);
    Log (Endpoint c +:+ " unsubscribed from " +:+ ev_Type event)] ++ ack,
   st).

(** The case the [select] of an iteration takes. *)
Definition branch (env : Cycle) : Branch :=
  select (unsubscribe_ready env) (ctx_done env) (coin env).

(** One iteration of [for { select { ... } }]. *)
Definition iteration (c : Client) (event : Event) (env : Cycle)
  : Event * list Effect * Status :=
  match branch env with
  | BDefault => cycle c event env
  | BUnsubscribe => unsubscribe c event env
  | BDone => (event, [], Returned)
  end.

(** The loop, driven by the environments of its iterations. It is still
    [Looping] when they are used up. *)
Fixpoint loop (c : Client) (event : Event) (envs : list Cycle)
  : Event * list Effect * Status :=
  match envs with
  | [] => (event, [], Looping)
  | env :: rest =>
      let '(event', tr, st) := iteration c event env in
      match st with
      | Looping =>
          let '(event'', tr', st') := loop c event' rest in
          (event'', tr ++ tr', st')
      | _ => (event', tr, st)
      end
  end.

(** The deferred function runs when [subscribe] returns or panics. *)
Definition deferred (event : Event) (st : Status) : list Effect :=
  match st with
  | Returned | Panicked => [Println2 "Exit Subscribtion: " (ev_Type event)]
  | Looping | Blocked => []
  end.

Definition put_event (σ : Store) (p : loc) (ev : Event) : Store :=
  {| events := <[p := ev]> (events σ); chans := chans σ |}.

(** [subscribe(ctx, event)]. A nil [event] is [None]. A pointer always
    leads to an object in Go; the case of a location without one is
    there for totality only. *)
Definition subscribe (c : Client) (σ : Store) (event : option loc)
           (envs : list Cycle) : Store * list Effect * Status :=
  match event with
  | None => (σ, [Log "Event is nil"], Returned)
  | Some p =>
      match events σ !! p with
      | None => (σ, [], Panicked)
      | Some ev =>
          let '(ev', tr, st) := loop c ev envs in
          (put_event σ p ev', tr ++ deferred ev' st, st)
      end
  end.

(** The deliveries of a trace, and the channel each went to. *)
Definition deliveries (tr : list Effect) : list (chan * ResponseData) :=
  omap (fun e => match e with ChanSend ch v => Some (ch, v) | _ => None end) tr.

Definition logs (tr : list Effect) : list string :=
  omap (fun e => match e with Log l => Some l | _ => None end) tr.

(** ** The subscription API *)

Definition SubscribeForEvent (c : Client) (σ : Store) (event : option loc)
           (envs : list Cycle) : Store * list Effect * Status :=
  subscribe c σ event envs.

Definition subscribeFor (t : string) (c : Client) (σ : Store) (envs : list Cycle)
  : Client * Store * list Effect * Status :=
  let '(event, c', σ') := getEvent t c σ in
  let '(σ'', tr, st) := subscribe c' σ' (Some event) envs in
  (c', σ'', tr, st).

Definition SubscribeForNewBlocks := subscribeFor "NewBlock".
Definition SubscribeForSyncUpdates := subscribeFor "SyncUpdate".
Definition SubscribeForBlockConfirmations := subscribeFor "BlockConfirmation".

(** ** The query facade *)

(** The values a caller passes as [variables interface{}]: the ones
    the methods of this file build (strings, integers, structs with
    their json tags, a nil or nested [interface{}]), and, for what
    [json.Marshal] refuses, a channel. *)
#[local] Unset Elimination Schemes.

Inductive Value :=
| VNil
| VString (s : string)
| VInt (n : Z)
| VBool (b : bool)
| VStruct (fields : list (string * Value))
| VChan.

Inductive json :=
| JNull
| JString (s : string)
| JNumber (n : Z)
| JBool (b : bool)
| JObject (fields : list (string * json)).

#[local] Set Elimination Schemes.

(** [json.Marshal]: [None] is its error on an unsupported type. *)
Fixpoint Marshal (v : Value) : option json :=
  match v with
  | VNil => Some JNull
  | VString s => Some (JString s)
  | VInt n => Some (JNumber n)
  | VBool b => Some (JBool b)
  | VStruct fields =>
      let fix members (fs : list (string * Value)) : option (list (string * json)) :=
        match fs with
        | [] => Some []
        | (k, x) :: rest =>
            match Marshal x, members rest with
            | Some j, Some js => Some ((k, j) :: js)
            | _, _ => None
            end
        end in
      match members fields with
      | Some js => Some (JObject js)
      | None => None
      end
  | VChan => None
  end.

Definition unsupported_type : string := "json: unsupported type".

(** [variables != ""]: an interface value equals the string constant
    only when it holds a string, and that string is empty. *)
Definition is_empty_string (variables : Value) : bool :=
  match variables with
  | VString "" => true
  | _ => false
  end.

Inductive HttpEffect :=
| HLog (line : string)
| Post (url content_type : string) (body : option json).

(** The first part of [makeHttpRequest]: the bytes of the request body.
    [None] is the nil slice that a failed [json.Marshal] leaves. *)
Definition request_payload (query : string) (variables : Value)
  : option json * list HttpEffect :=
  let payload := Some (JObject [("query", JString query)]) in
  if is_empty_string variables then (payload, [])
  else
    match Marshal (VStruct [("query", VString query); ("variables", variables)]) with
    | Some p => (Some p, [])
    | None => (None, [HLog unsupported_type])
    end.

(** The requests of a trace: where to, the content type, the body. *)
Definition posts (tr : list HttpEffect) : list (string * string * option json) :=
  omap (fun e => match e with Post u t b => Some (u, t, b) | _ => None end) tr.

(** What the HTTP library does with the request. *)
Inductive Http :=
| NewRequestFails (err : string)
| DoFails (err : string)
| ReadAllFails (err : string)
| Responds (body : string).

(** [makeHttpRequest]. When [http.NewRequest] fails, [request] is nil
    and [request.Header.Set] dereferences it before the error is
    looked at. The error the function returns is always nil. *)
Definition makeHttpRequest (c : Client) (query : string) (variables : Value)
           (http : Http) : Outcome (string * option string) * list HttpEffect :=
  let '(payload, tr) := request_payload query variables in
  let post := Post (Endpoint c) "application/json" payload in
  match http with
  | NewRequestFails _ => (Panics, tr)
  | DoFails err => (Exits, tr ++ [post; HLog err])
  | ReadAllFails err => (Exits, tr ++ [post; HLog err])
  | Responds body => (Done (body, None), tr ++ [post])
  end.

(** A channel of result pointers with its buffer; this file is its
    only sender. *)
Record Chan := {
  cap : nat;
  buf : list (option AbstractHttpResult);
  closed : bool
}.

(** [make(chan *types.AbstractHttpResult, n)] *)
Definition make_Chan (n : nat) : Chan := {| cap := n; buf := []; closed := false |}.

(** [ch <- v] with no receiver at hand: the value goes to the buffer
    when there is room. *)
Definition chan_send (ch : Chan) (v : option AbstractHttpResult) : Outcome Chan :=
  if closed ch then Panics
  else if (length (buf ch) <? cap ch)%nat
       then Done {| cap := cap ch; buf := buf ch ++ [v]; closed := false |}
       else Blocks.

(** [close(ch)] *)
Definition chan_close (ch : Chan) : Outcome Chan :=
  if closed ch then Panics
  else Done {| cap := cap ch; buf := buf ch; closed := true |}.

(** [if ch != nil { ch <- v }] *)
Definition send_if_chan (ch : option Chan) (v : option AbstractHttpResult)
  : Outcome (option Chan) :=
  match ch with
  | None => Done None
  | Some ch0 =>
      match chan_send ch0 v with
      | Done ch1 => Done (Some ch1)
      | Exits => Exits
      | Panics => Panics
      | Blocks => Blocks
      end
  end.

(** The result of [getResponse]: the pair it returns and the channel
    as it leaves it. *)
Record Reply := {
  result : option AbstractHttpResult;
  error : option string;
  channel : option Chan
}.

Definition getResponse (c : Client) (query : string) (variables : Value)
           (ch : option Chan) (http : Http) : Outcome Reply * list HttpEffect :=
  match makeHttpRequest c query variables http with
  | (Exits, tr) => (Exits, tr)
  | (Panics, tr) => (Panics, tr)
  | (Blocks, tr) => (Blocks, tr)
  | (Done (response, Some err), tr) =>
      match send_if_chan ch None with
      | Done ch' => (Done {| result := None; error := Some err; channel := ch' |}, tr)
      | Exits => (Exits, tr)
      | Panics => (Panics, tr)
      | Blocks => (Blocks, tr)
      end
  | (Done (response, None), tr) =>
      let response := removeFromJsonString response in
      match Decode response with
      | inr err2 =>
          match send_if_chan ch None with
          | Done ch' =>
              (Done {| result := None; error := Some err2; channel := ch' |},
               tr ++ [HLog err2])
          | Exits => (Exits, tr)
          | Panics => (Panics, tr)
          | Blocks => (Blocks, tr)
          end
      | inl ds =>
          match ch with
          | None => (Done {| result := Some ds; error := None; channel := None |}, tr)
          | Some ch0 =>
              match chan_send ch0 (Some ds) with
              | Done ch1 =>
                  match chan_close ch1 with
                  | Done ch2 =>
                      (Done {| result := Some ds; error := None; channel := Some ch2 |}, tr)
                  | Exits => (Exits, tr)
                  | Panics => (Panics, tr)
                  | Blocks => (Blocks, tr)
                  end
              | Exits => (Exits, tr)
              | Panics => (Panics, tr)
              | Blocks => (Blocks, tr)
              end
          end
      end
  end.

(** [getUniversalCh]: the channel it returns at once, and the goroutine
    it starts, which runs [getResponse] on that channel. *)
Definition getUniversalCh (c : Client) (query : string) (variables : Value)
  : Chan * (Http -> Outcome Reply * list HttpEffect) :=
  let ch := make_Chan 1 in
  (ch, fun http => getResponse c query variables (Some ch) http).

Definition getUniversal (c : Client) (query : string) (variables : Value)
           (http : Http) : Outcome Reply * list HttpEffect :=
  getResponse c query variables None http.

(** ** The specification's sentences, as it words them

    Each is stated for one iteration or one call, to be compared with
    what the code does there. *)

Definition transport_failed (env : Cycle) : bool :=
  bool_decide (is_Some (dial_err env))
  || bool_decide (is_Some (send_err env))
  || bool_decide (is_Some (recv_err env)).

(** "Transport-level errors within a cycle do not terminate the engine:
    the loop continues to the next cycle after the same fixed pause." *)
Definition survives_transport_failure (c : Client) (ev : Event) (env : Cycle) : Prop :=
  branch env = BDefault → transport_failed env = true →
  ∃ ev' tr, iteration c ev env = (ev', tr ++ [Sleep (1 * Second)], Looping).


(** "External cancellation always wins a race against a pending
    unsubscribe handshake." *)
Definition cancellation_wins (c : Client) (ev : Event) (env : Cycle) : Prop :=
  unsubscribe_ready env = true → ctx_done env = true →
  iteration c ev env = (ev, [], Returned).

(** "A single-capacity channel that receives exactly one result (or nil
    on failure) and is then closed." *)
Definition one_shot_future (c : Client) (query : string) (variables : Value)
           (http : Http) : Prop :=
  let '(ch, goroutine) := getUniversalCh c query variables in
  cap ch = 1%nat ∧
  ∃ r, fst (goroutine http) = Done r ∧
       channel r = Some {| cap := 1; buf := [result r]; closed := true |}.

(** ** Instances *)

(** Go's [int] on a 64-bit platform, for [wrap]. *)
Definition int_wrap (z : Z) : Z := (z + 2 ^ 63) mod 2 ^ 64 - 2 ^ 63.

Definition an_event : Event :=
  {| Response := 0%nat; ev_Type := "NewBlock"; Query := "subscription { newBlock }";
     Unsubscribe := 1%nat; Subscribed := false; Count := 0 |}.

Definition a_client : Client :=
  {| SubscriptionEvents := ∅; httpClient := {| Timeout := 5 * Second |};
     Endpoint := "http://localhost:8304/graphql"; hub := None |}.

Definition a_hub_client : Client :=
  {| SubscriptionEvents := ∅; httpClient := {| Timeout := 5 * Second |};
     Endpoint := "http://localhost:8304/graphql";
     hub := Some {| SubscriptionData := 7%nat |} |}.

Definition empty_store : Store := {| events := ∅; chans := 0%nat |}.

Definition a_frame : SubscriptionResponse :=
  {| sr_Type := "data"; sr_payload := "{}" |}.

(** An iteration in which nothing is signalled and every step works. *)
Definition a_good_cycle : Cycle :=
  {| unsubscribe_ready := false; ctx_done := false; coin := false;
     dial_err := None; send_err := None; recv_msg := a_frame;
     recv_err := None; peer := Receives |}.

Definition a_refused_dial : Cycle :=
  {| unsubscribe_ready := false; ctx_done := false; coin := false;
     dial_err := Some "connection refused"; send_err := None;
     recv_msg := SubscriptionResponse_zero; recv_err := None; peer := Receives |}.

Definition a_failed_receive : Cycle :=
  {| unsubscribe_ready := false; ctx_done := false; coin := false;
     dial_err := None; send_err := None;
     recv_msg := SubscriptionResponse_zero; recv_err := Some "EOF"; peer := Receives |}.

(** Both signals are up and the runtime picks the unsubscribe case. *)
Definition a_race : Cycle :=
  {| unsubscribe_ready := true; ctx_done := true; coin := true;
     dial_err := None; send_err := None; recv_msg := a_frame;
     recv_err := None; peer := Receives |}.

Definition an_unsubscribe : Cycle :=
  {| unsubscribe_ready := true; ctx_done := false; coin := false;
     dial_err := None; send_err := None; recv_msg := a_frame;
     recv_err := None; peer := Receives |}.

Definition a_cancellation : Cycle :=
  {| unsubscribe_ready := false; ctx_done := true; coin := false;
     dial_err := None; send_err := None; recv_msg := a_frame;
     recv_err := None; peer := Receives |}.

(** An envelope and a decoder for the instances of the facade: a body
    decodes when it is not empty. *)
Definition a_Decode (body : string) : string + string :=
  match body with
  | "" => inr "EOF"
  | _ => inl body
  end.

Definition a_strip (body : string) : string := body.

(** ** Notions for the further properties *)

(** Does [old] occur in [s], at any position? *)
Fixpoint occurs (old s : string) : bool :=
  match s with
  | EmptyString => String.prefix old s
  | String _ s' => String.prefix old s || occurs old s'
  end.

(** Is the character [a] absent from [u]? *)
Fixpoint avoids (a : ascii) (u : string) : bool :=
  match u with
  | EmptyString => true
  | String b u' => negb (Ascii.eqb a b) && avoids a u'
  end.

(** How many effects of a trace are of a given kind. *)
Fixpoint tally (f : Effect → bool) (tr : list Effect) : nat :=
  match tr with
  | [] => 0
  | e :: rest => ((if f e then 1 else 0) + tally f rest)%nat
  end.

Definition is_Dial (e : Effect) : bool :=
  match e with Dial _ _ _ => true | _ => false end.
Definition is_JSONSend (e : Effect) : bool :=
  match e with JSONSend _ => true | _ => false end.
Definition is_JSONReceive (e : Effect) : bool :=
  match e with JSONReceive => true | _ => false end.
Definition is_ConnClose (e : Effect) : bool :=
  match e with ConnClose => true | _ => false end.
Definition is_Sleep (e : Effect) : bool :=
  match e with Sleep _ => true | _ => false end.

Definition is_BDefault (b : Branch) : bool :=
  match b with BDefault => true | _ => false end.

(** No two events of the store share a channel, an event's two
    channels differ, and every channel in use has been made. *)
Definition channels_apart (σ : Store) : Prop :=
  (∀ p ev, events σ !! p = Some ev →
     (Response ev < chans σ)%nat ∧ (Unsubscribe ev < chans σ)%nat ∧
     Response ev ≠ Unsubscribe ev) ∧
  (∀ p q ev1 ev2, p ≠ q → events σ !! p = Some ev1 → events σ !! q = Some ev2 →
     Response ev1 ≠ Response ev2 ∧ Response ev1 ≠ Unsubscribe ev2 ∧
     Unsubscribe ev1 ≠ Response ev2 ∧ Unsubscribe ev1 ≠ Unsubscribe ev2).


(** The states of client and store that the constructors, the registry
    lookup and the engine reach from an empty store. *)
Inductive built : Client → Store → Prop :=
| built_NewClientWith (client : HttpClient) (endpoint : string) (h : option Hub)
                      (eventsIt : list string) :
    built (NewClientWith client endpoint h eventsIt empty_store).1
          (NewClientWith client endpoint h eventsIt empty_store).2
| built_getEvent (t : string) (c : Client) (σ : Store) :
    built c σ → built (getEvent t c σ).1.2 (getEvent t c σ).2
| built_subscribe (c : Client) (σ : Store) (event : option loc) (envs : list Cycle) :
    built c σ → built c (subscribe c σ event envs).1.1.

(** ** The Coda API

    The methods of the client, each a query document of package
    [types] with its variables. The documents are constants declared
    outside this file. *)
Variables DaemonStatusQuery DaemonVersionQuery GetSyncStatusQuery GetWalletsQuery
          GetWalletQuery UnlockWalletQuery CreateWalletQuery SendPaymentQuery
          GetPooledPaymentsQuery GetTransactionStatusQuery SetSnarkWorkerQuery
          GetCurrentSnarkWorkerQuery : string.

Definition GetDaemonStatusCh (c : Client) :=
  getUniversalCh c DaemonStatusQuery (VString "").

Definition GetDaemonStatus (c : Client) :=
  getUniversal c DaemonStatusQuery (VString "").

Definition GetDaemonVersion (c : Client) :=
  getUniversal c DaemonVersionQuery (VString "").

Definition GetSyncStatus (c : Client) :=
  getUniversal c GetSyncStatusQuery (VString "").

Definition GetWallets (c : Client) :=
  getUniversal c GetWalletsQuery (VString "").

Definition GetWallet (c : Client) (pk : string) :=
  getUniversal c GetWalletQuery (VStruct [("publicKey", VString pk)]).

Definition UnlockWallet (c : Client) (pk password : string) :=
  getUniversal c UnlockWalletQuery
    (VStruct [("publicKey", VString pk); ("password", VString password)]).

Definition CreateWallet (c : Client) (password : string) :=
  getUniversal c CreateWalletQuery (VStruct [("password", VString password)]).

Definition SendPayment (c : Client) (from to : string) (amount fee : Z) (memo : string) :=
  getUniversal c SendPaymentQuery
    (VStruct [("from", VString from); ("to", VString to); ("amount", VInt amount);
              ("fee", VInt fee); ("memo", VString memo)]).

Definition GetPooledPayments (c : Client) (pk : string) :=
  getUniversal c GetPooledPaymentsQuery (VStruct [("publicKey", VString pk)]).

Definition GetTransactionStatus (c : Client) (paymentId : string) :=
  getUniversal c GetTransactionStatusQuery (VStruct [("paymentId", VString paymentId)]).

(** [workerPk] is an [interface{}]: any value, nil to disable the
    worker. *)
Definition SetSnarkWorker (c : Client) (workerPk : Value) (fee : string) :=
  getUniversal c SetSnarkWorkerQuery
    (VStruct [("worker_pk", workerPk); ("fee", VString fee)]).

Definition GetCurrentSnarkWorker (c : Client) :=
  getUniversal c GetCurrentSnarkWorkerQuery (VString "").

(** The log lines of a trace of the facade. *)
Definition hlogs (tr : list HttpEffect) : list string :=
  omap (fun e => match e with HLog l => Some l | _ => None end) tr.

(** The one request of a call that gets past [http.NewRequest]. *)
Definition one_post (c : Client) (body : option json) (http : Http)
  : list (string * string * option json) :=
  match http with
  | NewRequestFails _ => []
  | _ => [(Endpoint c, "application/json", body)]
  end.

Definition query_only (query : string) : option json :=
  Some (JObject [("query", JString query)]).

Definition query_with (query : string) (variables : list (string * json)) : option json :=
  Some (JObject [("query", JString query); ("variables", JObject variables)]).



(** * Properties *)

(** Membership in a list written out with [++] and [::]. *)
Ltac member := repeat (rewrite elem_of_app || rewrite elem_of_cons); auto 20.

(** ** The loop *)

Lemma iteration_default (c : Client) (ev : Event) (env : Cycle) :
  branch env = BDefault → iteration c ev env = cycle c ev env.
Proof. unfold iteration. by intros ->. Qed.

Lemma iteration_unsubscribe (c : Client) (ev : Event) (env : Cycle) :
  branch env = BUnsubscribe → iteration c ev env = unsubscribe c ev env.
Proof. unfold iteration. by intros ->. Qed.

Lemma iteration_done (c : Client) (ev : Event) (env : Cycle) :
  branch env = BDone → iteration c ev env = (ev, [], Returned).
Proof. unfold iteration. by intros ->. Qed.

(** A run that is still looping goes on with the iterations that follow. *)
Lemma loop_app (c : Client) (envs1 envs2 : list Cycle) :
  ∀ ev ev1 tr1,
    loop c ev envs1 = (ev1, tr1, Looping) →
    loop c ev (envs1 ++ envs2) =
      (let '(ev2, tr2, st2) := loop c ev1 envs2 in (ev2, tr1 ++ tr2, st2)).
Proof.
  induction envs1 as [|env envs1 IH]; intros ev ev1 tr1 H; simpl in *.
  - injection H as <- <-. by destruct (loop c ev envs2) as [[? ?] ?].
  - destruct (iteration c ev env) as [[ev' tr] st].
    destruct st; try discriminate.
    destruct (loop c ev' envs1) as [[ev'' tr'] st'] eqn:E.
    injection H as <- <- ->.
    rewrite (IH _ _ _ E).
    destruct (loop c ev'' envs2) as [[ev2 tr2] st2].
    by rewrite app_assoc.
Qed.

(** An iteration that does not keep looping ends the run: what the
    environment holds for later iterations is never looked at. *)
Lemma loop_stops (c : Client) (ev : Event) (env : Cycle) (rest : list Cycle)
      (ev' : Event) (tr : list Effect) (st : Status) :
  iteration c ev env = (ev', tr, st) → st ≠ Looping →
  loop c ev (env :: rest) = (ev', tr, st).
Proof. intros E Hst. simpl. rewrite E. by destruct st. Qed.

Lemma deliveries_app (tr1 tr2 : list Effect) :
  deliveries (tr1 ++ tr2) = deliveries tr1 ++ deliveries tr2.
Proof. unfold deliveries. apply omap_app. Qed.

(** ** A nil event *)

(** C8: [subscribe] called with a nil event writes the one log entry
    "Event is nil" and returns: no panic, no delivery, and the store
    (every event, every channel) is as it was, whatever the environment
    would have offered to the loop. *)
Theorem subscribe_nil_event (c : Client) (σ : Store) (envs : list Cycle) :
  let '(σ', tr, st) := subscribe c σ None envs in
  σ' = σ ∧ tr = [Log "Event is nil"] ∧ logs tr = ["Event is nil"] ∧
  deliveries tr = [] ∧ st = Returned.
Proof. simpl. by repeat split. Qed.

(** ** The two ways out of the loop *)

(** C3, amended: when the context is done the iteration runs no
    delivery cycle and the engine does not loop again. If the
    unsubscribe channel is silent it returns at once, with no effect at
    all. If the unsubscribe channel is signalled as well, the runtime's
    pick decides: the engine either returns at once without a
    handshake, or takes the unsubscribe case (log, then
    acknowledgment). *)
Theorem select_with_context_done (c : Client) (ev : Event) (env : Cycle) :
  ctx_done env = true →
  (unsubscribe_ready env = false → iteration c ev env = (ev, [], Returned)) ∧
  (unsubscribe_ready env = true →
     iteration c ev env =
       if coin env then unsubscribe c ev env else (ev, [], Returned)) ∧
  (let '(ev', tr, st) := iteration c ev env in
   ev' = ev ∧ deliveries tr = [] ∧ st ≠ Looping).
Proof.
  intros Hctx. unfold iteration, branch, select. rewrite Hctx.
  destruct (unsubscribe_ready env), (coin env); simpl;
    unfold unsubscribe; destruct (peer env); simpl; repeat split; try done.
Qed.

(** C6: whenever a running engine takes the unsubscribe case, it
    changes nothing in the event, delivers nothing, and never loops
    again, whatever the environment holds for later iterations. When
    the unsubscriber takes the acknowledgment (the rendezvous the
    handshake is made of), the engine's effects from there on are
    exactly: the receive on [event.Unsubscribe], the log line, one
    [true] sent on the same channel; and the function returns. *)
Theorem unsubscribe_handshake (c : Client) (ev ev1 : Event)
        (envs1 : list Cycle) (tr1 : list Effect) (env : Cycle) (rest : list Cycle) :
  loop c ev envs1 = (ev1, tr1, Looping) →
  branch env = BUnsubscribe →
  ∃ tr st,
    loop c ev (envs1 ++ env :: rest) = (ev1, tr1 ++ tr, st) ∧
    deliveries tr = [] ∧ st ≠ Looping ∧
    (peer env = Receives →
       tr = [UnsubscribeRecv (Unsubscribe ev1);
             Log (Endpoint c +:+ " unsubscribed from " +:+ ev_Type ev1);
             UnsubscribeSend (Unsubscribe ev1) true]
       ∧ st = Returned).
Proof.
  intros Hloop Hbr.
  rewrite (loop_app _ _ _ _ _ _ Hloop).
  pose proof (iteration_unsubscribe c ev1 env Hbr) as Hit.
  unfold unsubscribe in Hit.
  destruct (peer env) eqn:Hp; simpl in Hit;
    rewrite (loop_stops _ _ _ rest _ _ _ Hit) by done;
    eexists _, _; (split; [reflexivity|]); repeat split; try done.
Qed.

(** ** Delivery cycles *)

(** The shape of a cycle whose connection opens. *)
Lemma cycle_dialled (c : Client) (ev : Event) (env : Cycle) :
  dial_err env = None →
  ∃ session,
    cycle c ev env =
      (set_Count (set_Subscribed ev true) (wrap (Count ev + 1)),
       session
       ++ match peer env with
          | Receives =>
              [ChanSend (sink c ev)
                 {| Host := Endpoint c; rd_Type := ev_Type ev; Data := recv_msg env |};
               Sleep (1 * Second)]
          | _ => []
          end,
       match peer env with
       | Receives => Looping
       | Absent => Blocked
       | ClosedChan => Panicked
       end)
    ∧ deliveries session = []
    ∧ JSONSend (start_message ev) ∈ session
    ∧ (∀ e, send_err env = Some e → Println2 "websocket.JSON." e ∈ session)
    ∧ (∀ e, recv_err env = Some e → Println2 "Error Receive" e ∈ session).
Proof.
  intros Hd. unfold cycle. rewrite Hd.
  exists ([SignalNotify;
           Log ("connecting to " +:+ subscribe_url (Endpoint c));
           Dial (subscribe_url (Endpoint c)) "" "http://localhost/"]
          ++ [Log ("Subscription Type: " +:+ ev_Type ev);
              JSONSend (start_message (set_Subscribed ev true))]
          ++ log_err "websocket.JSON." (send_err env)
          ++ [JSONReceive]
          ++ log_err "Error Receive" (recv_err env)
          ++ [ConnClose; Println2 "Receive type:" (sr_Type (recv_msg env))]).
  split; [|split; [|split; [|split]]].
  - destruct (peer env); unfold send_then;
      rewrite <- ?app_assoc, ?app_nil_r; reflexivity.
  - rewrite !deliveries_app.
    destruct (send_err env), (recv_err env); reflexivity.
  - change (start_message (set_Subscribed ev true)) with (start_message ev).
    member.
  - intros e ->. simpl. member.
  - intros e ->. simpl. member.
Qed.

(** The shape of a cycle whose connection does not open. *)
Lemma cycle_refused (c : Client) (ev : Event) (env : Cycle) (e : string) :
  dial_err env = Some e →
  cycle c ev env =
    (set_Subscribed ev true,
     [SignalNotify;
      Log ("connecting to " +:+ subscribe_url (Endpoint c));
      Dial (subscribe_url (Endpoint c)) "" "http://localhost/";
      Println2 "dial:" e],
     Returned).
Proof. intros Hd. unfold cycle. by rewrite Hd. Qed.

(** C1, amended: in a delivery cycle whose connection has opened, a
    failed send and a failed receive are each logged and do not end the
    engine: the cycle goes on to its delivery and, once the delivery is
    taken, the loop is back at its head after the one-second pause. A
    failed connection open is logged and the engine returns, with no
    pause. The function returns from an iteration only by the taken
    unsubscribe handshake, by external cancellation, or by a failed
    connection open. *)
Theorem cycle_transport_errors (c : Client) (ev : Event) :
  (∀ env, branch env = BDefault → dial_err env = None → peer env = Receives →
     ∃ ev' tr,
       iteration c ev env = (ev', tr ++ [Sleep (1 * Second)], Looping) ∧
       (∀ e, send_err env = Some e → Log ("websocket.JSON. " +:+ e) ∈ tr) ∧
       (∀ e, recv_err env = Some e → Log ("Error Receive " +:+ e) ∈ tr)) ∧
  (∀ env e, branch env = BDefault → dial_err env = Some e →
     ∃ tr,
       iteration c ev env = (set_Subscribed ev true, tr ++ [Log ("dial: " +:+ e)], Returned) ∧
       Sleep (1 * Second) ∉ tr) ∧
  (∀ env ev' tr, iteration c ev env = (ev', tr, Returned) →
     branch env = BDone
     ∨ (branch env = BUnsubscribe ∧ peer env = Receives)
     ∨ (branch env = BDefault ∧ is_Some (dial_err env))).
Proof.
  split; [|split].
  - intros env Hb Hd Hp.
    rewrite (iteration_default _ _ _ Hb).
    destruct (cycle_dialled c ev env Hd) as (session & -> & _ & _ & Hs & Hr).
    rewrite Hp.
    eexists _, (session ++ [_]). split.
    + by rewrite <- app_assoc.
    + split; intros e He; apply elem_of_app; left; [by apply Hs | by apply Hr].
  - intros env e Hb Hd.
    rewrite (iteration_default _ _ _ Hb), (cycle_refused _ _ _ _ Hd).
    eexists [_; _; _]. split; [reflexivity|].
    rewrite !elem_of_cons, elem_of_nil. by intros [H|[H|[H|H]]].
  - intros env ev' tr. unfold iteration.
    destruct (branch env) eqn:Hb.
    + destruct (dial_err env) as [e|] eqn:Hd; [by eauto 6|].
      destruct (cycle_dialled c ev env Hd) as (session & -> & _).
      by destruct (peer env).
    + unfold unsubscribe. destruct (peer env); simpl; intros [=]; eauto.
    + eauto.
Qed.


(** X21: over a whole run the counter goes up by at most one per
    iteration and never down, as long as it stays clear of the end of
    its type. *)
Lemma loop_Count_monotone (c : Client) (envs : list Cycle) :
  ∀ ev,
    (∀ n, (Count ev ≤ n < Count ev + Z.of_nat (length envs))%Z → wrap (n + 1) = n + 1) →
    (Count ev ≤ Count (loop c ev envs).1.1 ≤ Count ev + Z.of_nat (length envs))%Z.
Proof.
  induction envs as [|env envs IH]; intros ev Hw; simpl.
  - lia.
  - assert (Hstep : (Count ev ≤ Count (iteration c ev env).1.1 ≤ Count ev + 1)%Z).
    { unfold iteration. destruct (branch env).
      - unfold cycle. destruct (dial_err env); simpl; [lia|].
        destruct (send_then _ _ _ _). simpl.
        rewrite Hw; simpl length; lia.
      - unfold unsubscribe. destruct (send_then _ _ _ _). simpl. lia.
      - simpl. lia. }
    destruct (iteration c ev env) as [[ev' tr] st]. simpl in Hstep.
    destruct st; simpl; try lia.
    specialize (IH ev').
    destruct (loop c ev' envs) as [[ev'' tr'] st']. simpl in *.
    assert (Count ev' ≤ Count ev'' ≤ Count ev' + Z.of_nat (length envs))%Z; [|lia].
    apply IH. intros n Hn. apply Hw. lia.
Qed.


(** ** The registry *)

Lemma fresh_not_stored (m : gmap loc Event) : m !! fresh (dom m) = None.
Proof. apply not_elem_of_dom, is_fresh. Qed.

(** What [createEvent] builds, where it puts it, and that the place was
    free. *)
Lemma createEvent_fresh (t : string) (σ : Store) :
  let '(event, σ') := createEvent t σ in
  events σ !! event = None ∧
  events σ' =
    <[event := {| Response := chans σ; ev_Type := t;
                  Query := index_or_zero subscriptionEventsQueries t;
                  Unsubscribe := S (chans σ); Subscribed := false; Count := 0 |}]>
      (events σ) ∧
  chans σ' = S (S (chans σ)).
Proof.
  unfold createEvent, make_chan, alloc. simpl.
  split; [apply fresh_not_stored | done].
Qed.

Lemma index_unknown_type (t : string) :
  t ≠ "NewBlock" → t ≠ "SyncUpdate" → t ≠ "BlockConfirmation" →
  index_or_zero subscriptionEventsQueries t = "".
Proof.
  intros H1 H2 H3. unfold index_or_zero, subscriptionEventsQueries.
  by rewrite !lookup_insert_ne, lookup_empty.
Qed.


(** The effects of the first iteration open the trace of a run. *)
Lemma subscribe_first_iteration (c : Client) (σ : Store) (p : loc) (ev : Event)
      (env : Cycle) (rest : list Cycle) :
  events σ !! p = Some ev →
  ∃ tr', (subscribe c σ (Some p) (env :: rest)).1.2 = (iteration c ev env).1.2 ++ tr'.
Proof.
  intros Hp. unfold subscribe. rewrite Hp. simpl.
  destruct (iteration c ev env) as [[ev' tr] st]. simpl.
  destruct st; simpl.
  - destruct (loop c ev' rest) as [[ev'' tr''] st'']. simpl.
    eexists. by rewrite <- app_assoc.
  - by eexists.
  - by eexists.
  - by eexists.
Qed.

(** C10: for a type name [t] other than "NewBlock", "SyncUpdate" and
    "BlockConfirmation" that the registry does not hold yet, [getEvent]
    stores a new event at a free location, enters it under [t] and
    returns it, and the event's query document is the empty string; a
    subscription then started for [t] sends, in a cycle whose
    connection opens, the start message with the empty query. *)
Theorem getEvent_unknown_type (t : string) (c : Client) (σ : Store) :
  t ≠ "NewBlock" → t ≠ "SyncUpdate" → t ≠ "BlockConfirmation" →
  SubscriptionEvents c !! t = None →
  ∃ event c' σ' ev,
    getEvent t c σ = (event, c', σ') ∧
    events σ !! event = None ∧
    SubscriptionEvents c' = <[t := event]> (SubscriptionEvents c) ∧
    events σ' !! event = Some ev ∧
    ev_Type ev = t ∧ Query ev = "" ∧ Count ev = 0 ∧ Subscribed ev = false ∧
    ∀ env rest, branch env = BDefault → dial_err env = None →
      JSONSend {| sdq_Type := "start"; Id := "1"; Payload := {| sq_Query := "" |} |}
        ∈ (subscribeFor t c σ (env :: rest)).1.2.
Proof.
  intros H1 H2 H3 Hnone.
  unfold subscribeFor, getEvent. rewrite Hnone.
  pose proof (createEvent_fresh t σ) as Hc.
  destruct (createEvent t σ) as [event σ'].
  destruct Hc as (Hfree & Hev & _).
  set (c' := with_events c (<[t:=event]> (SubscriptionEvents c))).
  rewrite (index_unknown_type t H1 H2 H3) in Hev.
  set (ev0 := {| Response := chans σ; ev_Type := t; Query := "";
                 Unsubscribe := S (chans σ); Subscribed := false; Count := 0 |}) in *.
  assert (Hp : events σ' !! event = Some ev0)
    by (rewrite Hev; apply lookup_insert_eq).
  exists event, c', σ', ev0.
  split; [done|]. split; [done|]. split; [done|]. split; [exact Hp|].
  repeat split; try done.
  intros env rest Hb Hd.
  destruct (subscribe_first_iteration c' σ' event ev0 env rest Hp) as [tr' Htr].
  destruct (subscribe c' σ' (Some event) (env :: rest)) as [[σ'' tr] st].
  simpl in Htr. simpl. subst tr.
  rewrite (iteration_default _ _ _ Hb).
  destruct (cycle_dialled c' ev0 env Hd) as (session & Hc & _ & Hsend & _).
  rewrite Hc. simpl. rewrite !elem_of_app. left. left. exact Hsend.
Qed.

(** *** The registry as the file builds it *)

Lemma createEvent_registry_ok (t : string) (m : gmap string loc) (σ : Store) :
  registry_ok m σ →
  let '(event, σ') := createEvent t σ in registry_ok (<[t := event]> m) σ'.
Proof.
  intros Hok. pose proof (createEvent_fresh t σ) as Hc.
  destruct (createEvent t σ) as [event σ'].
  destruct Hc as (Hfree & Hev & _).
  intros t' p Hl. rewrite Hev.
  destruct (decide (t = t')) as [<-|Hne].
  - rewrite lookup_insert_eq in Hl. injection Hl as <-.
    rewrite lookup_insert_eq. by eexists.
  - rewrite lookup_insert_ne in Hl by done.
    destruct (Hok t' p Hl) as (ev & Hp & Hty & Hq).
    exists ev. rewrite lookup_insert_ne; [done|].
    intros <-. congruence.
Qed.

Lemma makeSubEvents_registry_ok (eventsIt : list string) :
  ∀ m σ, registry_ok m σ →
    let '(m', σ') := makeSubEvents eventsIt m σ in registry_ok m' σ'.
Proof.
  induction eventsIt as [|item rest IH]; intros m σ Hok; cbn [makeSubEvents]; [done|].
  pose proof (createEvent_registry_ok item m σ Hok) as Hc.
  destruct (createEvent item σ) as [event σ'].
  by apply IH.
Qed.

(** A new client's registry is as above, whatever the store held. *)
Lemma NewClient_registry_ok (endpoint : string) (h : option Hub)
      (eventsIt : list string) (σ : Store) :
  let '(c, σ') := NewClient endpoint h eventsIt σ in
  registry_ok (SubscriptionEvents c) σ'.
Proof.
  unfold NewClient, NewClientWith.
  assert (H0 : registry_ok ∅ σ) by (intros t p Hl; by rewrite lookup_empty in Hl).
  pose proof (makeSubEvents_registry_ok eventsIt ∅ σ H0) as Hm.
  by destruct (makeSubEvents eventsIt ∅ σ) as [m' σ'].
Qed.

Lemma getEvent_registry_ok (t : string) (c : Client) (σ : Store) :
  registry_ok (SubscriptionEvents c) σ →
  let '(event, c', σ') := getEvent t c σ in
  registry_ok (SubscriptionEvents c') σ' ∧
  ∃ ev, events σ' !! event = Some ev ∧ ev_Type ev = t ∧
        Query ev = index_or_zero subscriptionEventsQueries t.
Proof.
  intros Hok. unfold getEvent.
  destruct (SubscriptionEvents c !! t) as [p|] eqn:Hl.
  - split; [done | by apply Hok].
  - pose proof (createEvent_registry_ok t _ σ Hok) as Hc.
    destruct (createEvent t σ) as [event σ']. simpl.
    split; [done|]. apply Hc, lookup_insert_eq.
Qed.

(** The engine writes [Subscribed] and [Count] and nothing else. *)
Lemma loop_keeps_identity (c : Client) (envs : list Cycle) :
  ∀ ev, let ev' := (loop c ev envs).1.1 in
        ev_Type ev' = ev_Type ev ∧ Query ev' = Query ev ∧
        Response ev' = Response ev ∧ Unsubscribe ev' = Unsubscribe ev.
Proof.
  induction envs as [|env envs IH]; intros ev; simpl; [done|].
  assert (Hstep : let ev1 := (iteration c ev env).1.1 in
                  ev_Type ev1 = ev_Type ev ∧ Query ev1 = Query ev ∧
                  Response ev1 = Response ev ∧ Unsubscribe ev1 = Unsubscribe ev).
  { unfold iteration. destruct (branch env); [| |done].
    - unfold cycle. destruct (dial_err env); [done|].
      by destruct (send_then _ _ _ _).
    - unfold unsubscribe. by destruct (send_then _ _ _ _). }
  destruct (iteration c ev env) as [[ev1 tr1] st1]. simpl in Hstep.
  destruct st1; try done.
  specialize (IH ev1). destruct (loop c ev1 envs) as [[ev2 tr2] st2].
  simpl in *. destruct IH as (-> & -> & -> & ->). done.
Qed.

Lemma subscribe_registry_ok (c : Client) (σ : Store) (event : option loc)
      (envs : list Cycle) (m : gmap string loc) :
  registry_ok m σ → registry_ok m (subscribe c σ event envs).1.1.
Proof.
  intros Hok. unfold subscribe.
  destruct event as [p|]; [|done].
  destruct (events σ !! p) as [ev|] eqn:Hp; [|done].
  pose proof (loop_keeps_identity c envs ev) as Hid.
  destruct (loop c ev envs) as [[ev' tr] st]. simpl in *.
  destruct Hid as (Hty & Hq & _).
  intros t q Hl. destruct (Hok t q Hl) as (ev0 & Hq0 & Hty0 & Hquery0).
  unfold put_event. cbn [events].
  destruct (decide (p = q)) as [<-|Hne].
  - rewrite lookup_insert_eq. exists ev'.
    assert (ev0 = ev) as -> by congruence.
    split; [done|]. split; congruence.
  - rewrite lookup_insert_ne by done. by exists ev0.
Qed.

(** ** The query facade *)

Lemma is_empty_string_spec (variables : Value) :
  is_empty_string variables = true ↔ variables = VString "".
Proof.
  destruct variables as [|s| | | |]; simpl; try (split; congruence).
  destruct s; split; congruence.
Qed.

(** C9: [makeHttpRequest] posts, with content type application/json
    and to the client's endpoint, the body that [request_payload]
    builds; that body is the object with the one field "query" when
    [variables] is the empty string (what the methods of this file pass
    for "no variables"), and otherwise, for every [variables] that
    [json.Marshal] encodes, the object with the fields "query" and
    "variables", in this order. *)
Theorem makeHttpRequest_body (c : Client) (query : string) (variables : Value) :
  (variables = VString "" →
     request_payload query variables =
       (Some (JObject [("query", JString query)]), [])) ∧
  (variables ≠ VString "" → ∀ j, Marshal variables = Some j →
     request_payload query variables =
       (Some (JObject [("query", JString query); ("variables", j)]), [])) ∧
  (∀ http, (∀ e, http ≠ NewRequestFails e) →
     posts (makeHttpRequest c query variables http).2 =
       [(Endpoint c, "application/json", (request_payload query variables).1)]).
Proof.
  split; [|split].
  - by intros ->.
  - intros Hne j Hj. unfold request_payload.
    destruct (is_empty_string variables) eqn:He.
    + by apply is_empty_string_spec in He.
    + simpl. by rewrite Hj.
  - intros http Hreq. unfold makeHttpRequest.
    destruct (request_payload query variables) as [payload tr] eqn:Hpay.
    assert (Htr : posts tr = []).
    { unfold request_payload in Hpay.
      destruct (is_empty_string variables); [by injection Hpay as <- <-|].
      destruct (Marshal _); by injection Hpay as <- <-. }
    unfold posts in *.
    destruct http; simpl; rewrite ?omap_app, ?Htr; try done.
    by destruct (Hreq err).
Qed.

(** C4, amended: the channel that [getUniversalCh] returns has capacity
    one and is empty and open. When the response decodes, the goroutine
    sends the decoded envelope, the one value the channel ever gets,
    and closes the channel. When the response does not decode, the
    goroutine sends nil, the one value the channel gets. When the
    HTTP exchange fails ([Do] or [ReadAll]), [log.Fatalln] ends the
    process and nothing has been sent. *)
Theorem getUniversalCh_one_shot (c : Client) (query : string) (variables : Value) :
  let '(ch, goroutine) := getUniversalCh c query variables in
  ch = {| cap := 1; buf := []; closed := false |} ∧
  (∀ body ds, Decode (removeFromJsonString body) = inl ds →
     (goroutine (Responds body)).1 =
       Done {| result := Some ds; error := None;
               channel := Some {| cap := 1; buf := [Some ds]; closed := true |} |}) ∧
  (∀ body err, Decode (removeFromJsonString body) = inr err →
     ∃ r ch', (goroutine (Responds body)).1 = Done r ∧
              result r = None ∧ error r = Some err ∧
              channel r = Some ch' ∧ cap ch' = 1%nat ∧ buf ch' = [None]) ∧
  (∀ err, (goroutine (DoFails err)).1 = Exits ∧
          (goroutine (ReadAllFails err)).1 = Exits).
Proof.
  unfold getUniversalCh, getResponse, makeHttpRequest.
  destruct (request_payload query variables) as [payload tr].
  split; [done|]. split; [|split].
  - intros body ds Hd. by rewrite Hd.
  - intros body err Hd. rewrite Hd. simpl. by eexists _, _.
  - done.
Qed.

(** ** The transport URL *)

Lemma Replace_all_http (s : string) :
  strings.Replace s "http" "ws" (-1) = strings.replace_scan "http" "ws" None 0 s.
Proof. reflexivity. Qed.

(** After a leading "http" the scan goes on through the rest of the
    endpoint and rewrites what it finds there as well. *)
Lemma subscribe_url_http (rest : string) :
  subscribe_url ("http" +:+ rest) = "ws" +:+ strings.Replace rest "http" "ws" (-1).
Proof.
  unfold subscribe_url. rewrite !Replace_all_http. simpl.
  change ("" +:+ rest) with rest. by destruct rest.
Qed.

Lemma substring_all (s : string) : String.substring 0 (String.length s) s = s.
Proof. induction s as [|a s IH]; simpl; [done | by rewrite IH]. Qed.

(** The code and the specification agree on an endpoint that starts
    with "http" and in whose remainder the scan finds nothing. *)
Lemma subscribe_url_prefix_only (rest : string) :
  strings.Replace rest "http" "ws" (-1) = rest →
  subscribe_url ("http" +:+ rest) = scheme_prefix_substitution ("http" +:+ rest).
Proof.
  intros H. rewrite subscribe_url_http, H.
  unfold scheme_prefix_substitution. simpl.
  destruct rest; simpl; [done|].
  by rewrite substring_all.
Qed.

(** C5: on the endpoint "http://httpbin.org/graphql" the code derives
    "ws://wsbin.org/graphql": [strings.Replace] with count -1 rewrites
    the "http" of the host name too, where a substitution of the scheme
    prefix alone gives "ws://httpbin.org/graphql". *)
Theorem subscribe_url_rewrites_every_http :
  subscribe_url "http://httpbin.org/graphql" = "ws://wsbin.org/graphql" ∧
  scheme_prefix_substitution "http://httpbin.org/graphql" = "ws://httpbin.org/graphql" ∧
  subscribe_url "http://httpbin.org/graphql"
    ≠ scheme_prefix_substitution "http://httpbin.org/graphql".
Proof. by vm_compute. Qed.

Example subscribe_url_localhost :
  subscribe_url "http://localhost:8304/graphql" = "ws://localhost:8304/graphql".
Proof. reflexivity. Qed.

Example subscribe_url_tls :
  subscribe_url "https://node.example.org/graphql" = "wss://node.example.org/graphql".
Proof. reflexivity. Qed.

(** * Further properties of the code *)

(** ** [strings.Replace] on the endpoint *)

Lemma prefix_cons (a b : ascii) (u s : string) :
  String.prefix (String a u) (String b s) = true ↔ a = b ∧ String.prefix u s = true.
Proof.
  simpl. destruct (ascii_dec a b) as [->|Hne].
  - split; [intros H; split; [reflexivity | exact H] | intros [_ H]; exact H].
  - split; [discriminate | intros [E _]; contradiction].
Qed.

Lemma prefix_empty_r (a : ascii) (u : string) : String.prefix (String a u) "" = false.
Proof. reflexivity. Qed.

(** The scan, one step at a time: at an occurrence it writes "ws" and
    goes on behind it, elsewhere it copies a byte. *)
Lemma subscribe_url_at_http (rest : string) :
  subscribe_url (String "h" (String "t" (String "t" (String "p" rest)))) =
    String "w" (String "s" (subscribe_url rest)).
Proof. exact (subscribe_url_http rest). Qed.

Lemma subscribe_url_copy (c : ascii) (s : string) :
  String.prefix "http" (String c s) = false →
  subscribe_url (String c s) = String c (subscribe_url s).
Proof.
  intros H. unfold subscribe_url. rewrite !Replace_all_http.
  cbn [strings.replace_scan strings.within andb]. by rewrite H.
Qed.

Lemma prefix_http_shape (s : string) :
  String.prefix "http" s = true →
  ∃ rest, s = String "h" (String "t" (String "t" (String "p" rest))).
Proof.
  intros H.
  destruct s as [|a s]; [discriminate|]. apply prefix_cons in H as [<- H].
  destruct s as [|a s]; [discriminate|]. apply prefix_cons in H as [<- H].
  destruct s as [|a s]; [discriminate|]. apply prefix_cons in H as [<- H].
  destruct s as [|a s]; [discriminate|]. apply prefix_cons in H as [<- H].
  by exists s.
Qed.

Lemma subscribe_url_unchanged (Endpoint : string) :
  occurs "http" Endpoint = false → subscribe_url Endpoint = Endpoint.
Proof.
  induction Endpoint as [|c s IH]; [done|].
  cbn [occurs]. intros [H1 H2]%orb_false_elim.
  rewrite (subscribe_url_copy _ _ H1). by rewrite IH.
Qed.

(** What the result of the scan starts with, when it is free of 'w',
    the input starts with too. *)
Lemma prefix_of_subscribe_url (u : string) :
  avoids "w" u = true →
  ∀ s, String.prefix u (subscribe_url s) = true → String.prefix u s = true.
Proof.
  induction u as [|a u IH]; intros Hav s H.
  - by destruct s.
  - cbn [avoids] in Hav. apply andb_prop in Hav as [Ha Hav].
    destruct (String.prefix "http" s) eqn:Hp.
    + destruct (prefix_http_shape s Hp) as [rest ->].
      rewrite subscribe_url_at_http in H. apply prefix_cons in H as [-> _].
      by rewrite Ascii.eqb_refl in Ha.
    + destruct s as [|c s]; [done|].
      rewrite (subscribe_url_copy _ _ Hp) in H.
      apply prefix_cons in H as [-> H]. apply prefix_cons. auto.
Qed.

Lemma subscribe_url_no_http (s : string) : occurs "http" (subscribe_url s) = false.
Proof.
  assert (H : ∀ n s, (String.length s ≤ n)%nat → occurs "http" (subscribe_url s) = false).
  { induction n as [|n IH]; intros s0 Hlen.
    - destruct s0; [done | simpl in Hlen; lia].
    - destruct (String.prefix "http" s0) eqn:Hp.
      + destruct (prefix_http_shape s0 Hp) as [rest ->].
        rewrite subscribe_url_at_http. cbn [occurs].
        rewrite IH by (simpl in Hlen; lia). reflexivity.
      + destruct s0 as [|c s0]; [done|].
        rewrite (subscribe_url_copy _ _ Hp). cbn [occurs].
        rewrite IH by (simpl in Hlen; lia). rewrite orb_false_r.
        destruct (String.prefix "http" (String c (subscribe_url s0))) eqn:Hq; [|done].
        apply prefix_cons in Hq as [<- Hq].
        apply (prefix_of_subscribe_url "ttp" eq_refl) in Hq.
        assert (String.prefix "http" (String "h" s0) = true) by (by apply prefix_cons).
        congruence. }
  by apply (H (String.length s)).
Qed.

(** X1: the engine dials the endpoint as it is exactly when "http"
    does not occur in it: without a scheme to rewrite the URL is the
    endpoint itself, and any "http", wherever it stands, changes the
    URL. *)
Theorem subscribe_url_without_http (Endpoint : string) :
  occurs "http" Endpoint = false ↔ subscribe_url Endpoint = Endpoint.
Proof.
  split; [apply subscribe_url_unchanged|].
  intros H. rewrite <- H. apply subscribe_url_no_http.
Qed.

(** X2: the URL the engine dials holds no "http" any more, wherever
    the endpoint had one; so deriving a URL from a derived URL changes
    nothing. *)
Theorem subscribe_url_leaves_no_http (Endpoint : string) :
  occurs "http" (subscribe_url Endpoint) = false ∧
  subscribe_url (subscribe_url Endpoint) = subscribe_url Endpoint.
Proof.
  split; [apply subscribe_url_no_http|].
  apply subscribe_url_unchanged, subscribe_url_no_http.
Qed.

(** X3: when "http" occurs in the endpoint as its scheme only, the code
    does what a substitution of the scheme does: "http" followed by
    [rest] gives "ws" followed by [rest], and "https" gives "wss". *)
Theorem subscribe_url_scheme_only (rest : string) :
  occurs "http" rest = false →
  subscribe_url ("http" +:+ rest) = "ws" +:+ rest ∧
  subscribe_url ("http" +:+ rest) = scheme_prefix_substitution ("http" +:+ rest) ∧
  subscribe_url ("https" +:+ rest) = "wss" +:+ rest.
Proof.
  intros H.
  assert (H1 : subscribe_url ("http" +:+ rest) = "ws" +:+ rest).
  { change ("http" +:+ rest) with (String "h" (String "t" (String "t" (String "p" rest)))).
    rewrite subscribe_url_at_http, (subscribe_url_unchanged _ H). reflexivity. }
  split; [exact H1|]. split.
  - rewrite H1. unfold scheme_prefix_substitution.
    change ("http" +:+ rest) with (String "h" (String "t" (String "t" (String "p" rest)))).
    cbn. destruct rest; [done|]. cbn. by rewrite substring_all.
  - change ("https" +:+ rest)
      with (String "h" (String "t" (String "t" (String "p" (String "s" rest))))).
    rewrite subscribe_url_at_http, subscribe_url_unchanged; [reflexivity|].
    cbn [occurs]. by rewrite H.
Qed.

(** ** Whole runs of the engine *)

Lemma tally_app (f : Effect → bool) (tr1 tr2 : list Effect) :
  tally f (tr1 ++ tr2) = (tally f tr1 + tally f tr2)%nat.
Proof. induction tr1 as [|e tr1 IH]; simpl; [done | rewrite IH; lia]. Qed.





Lemma iteration_connections (c : Client) (ev : Event) (env : Cycle) :
  let '(_, tr, st) := iteration c ev env in
  tally is_JSONSend tr = tally is_ConnClose tr ∧
  tally is_JSONReceive tr = tally is_ConnClose tr ∧
  tally is_Sleep tr = length (deliveries tr) ∧
  (tally is_Dial tr ≤ 1)%nat ∧
  (st = Looping → tally is_Sleep tr = tally is_Dial tr) ∧
  (tally is_Dial tr = tally is_ConnClose tr
   ∨ (st = Returned ∧ tally is_Dial tr = S (tally is_ConnClose tr))).
Proof.
  unfold iteration, cycle, unsubscribe, send_then, log_err, Println2.
  destruct (branch env), (dial_err env), (send_err env), (recv_err env), (peer env);
    cbn; repeat split; auto; try discriminate.
Qed.


(** X7: the pause bounds the request rate. A run pauses once after
    each delivery and never otherwise, and it dials at most once more
    than it has paused. *)
Theorem loop_pauses (c : Client) (envs : list Cycle) :
  ∀ ev,
    let '(_, tr, st) := loop c ev envs in
    tally is_Sleep tr = length (deliveries tr) ∧
    (tally is_Dial tr ≤ S (tally is_Sleep tr))%nat ∧
    (st = Looping → tally is_Dial tr = tally is_Sleep tr).
Proof.
  induction envs as [|env envs IH]; intros ev; simpl; [by auto|].
  pose proof (iteration_connections c ev env) as H1.
  destruct (iteration c ev env) as [[ev1 tr1] st1].
  destruct H1 as (_ & _ & Hsl & Hle & Hlo & _).
  destruct st1; try (split; [done|]; split; [lia | done]).
  specialize (IH ev1). destruct (loop c ev1 envs) as [[ev2 tr2] st2].
  destruct IH as (Hsl2 & Hle2 & Hlo2).
  rewrite deliveries_app, length_app, !tally_app.
  specialize (Hlo eq_refl).
  split; [lia|]. split; [lia|]. intros Hst. specialize (Hlo2 Hst). lia.
Qed.


Lemma loop_Subscribed_sticky (c : Client) (envs : list Cycle) :
  ∀ ev, Subscribed ev = true → Subscribed (loop c ev envs).1.1 = true.
Proof.
  induction envs as [|env envs IH]; intros ev Hs; simpl; [done|].
  assert (H1 : Subscribed (iteration c ev env).1.1 = true).
  { unfold iteration. destruct (branch env); [| |done].
    - unfold cycle. destruct (dial_err env); [done|].
      by destruct (send_then _ _ _ _).
    - unfold unsubscribe. by destruct (send_then _ _ _ _). }
  destruct (iteration c ev env) as [[ev1 tr1] st1]. cbn in H1.
  destruct st1; try done.
  specialize (IH ev1 H1). by destruct (loop c ev1 envs) as [[ev2 tr2] st2].
Qed.

(** X9: [Subscribed] means "a delivery cycle has ever started". After
    a run it is true when it was true before or when the first
    iteration found no signal pending and started a cycle, and only
    then: an engine that is cancelled or unsubscribed before its first
    cycle leaves the flag as it was, and no run ever resets it. *)
Theorem loop_Subscribed (c : Client) (envs : list Cycle) (ev : Event) :
  Subscribed (loop c ev envs).1.1 =
    Subscribed ev
    || match envs with
       | env :: _ => is_BDefault (branch env)
       | [] => false
       end.
Proof.
  destruct envs as [|env envs]; simpl; [by rewrite orb_false_r|].
  unfold iteration. destruct (branch env) eqn:Hb; cbn [is_BDefault].
  - rewrite orb_true_r.
    assert (H1 : Subscribed (cycle c ev env).1.1 = true).
    { unfold cycle. destruct (dial_err env); [done|].
      by destruct (send_then _ _ _ _). }
    destruct (cycle c ev env) as [[ev1 tr1] st1]. cbn in H1.
    destruct st1; try done.
    pose proof (loop_Subscribed_sticky c envs ev1 H1).
    by destruct (loop c ev1 envs) as [[ev2 tr2] st2].
  - rewrite orb_false_r. unfold unsubscribe. by destruct (peer env).
  - by rewrite orb_false_r.
Qed.


(** ** The registry over the life of a client *)




Lemma registry_ok_injective (m : gmap string loc) (σ : Store) (t1 t2 : string) (p : loc) :
  registry_ok m σ → m !! t1 = Some p → m !! t2 = Some p → t1 = t2.
Proof.
  intros Hok H1 H2.
  destruct (Hok t1 p H1) as (ev1 & Hp1 & Ht1 & _).
  destruct (Hok t2 p H2) as (ev2 & Hp2 & Ht2 & _).
  congruence.
Qed.

Lemma built_registry_ok (c : Client) (σ : Store) :
  built c σ → registry_ok (SubscriptionEvents c) σ.
Proof.
  induction 1 as [client endpoint h eventsIt | t c σ Hb IH | c σ event envs Hb IH].
  - unfold NewClientWith.
    assert (H0 : registry_ok ∅ empty_store)
      by (intros t p Hl; by rewrite lookup_empty in Hl).
    pose proof (makeSubEvents_registry_ok eventsIt ∅ empty_store H0) as Hm.
    by destruct (makeSubEvents eventsIt ∅ empty_store) as [m' σ'].
  - pose proof (getEvent_registry_ok t c σ IH) as Hg.
    destruct (getEvent t c σ) as [[p c'] σ']. by destruct Hg.
  - by apply subscribe_registry_ok.
Qed.

(** X12: in every state that the constructors, [getEvent] and
    [subscribe] reach from an empty store, each entry of the registry
    leads to an event of the store that carries the entry's key as its
    type and the query document of that key, whatever the engine has
    done to the event since; and no two type names share an event. *)
Theorem built_registry (c : Client) (σ : Store) :
  built c σ →
  (∀ t p, SubscriptionEvents c !! t = Some p →
     ∃ ev, events σ !! p = Some ev ∧ ev_Type ev = t ∧
           Query ev = index_or_zero subscriptionEventsQueries t) ∧
  (∀ t1 t2 p, SubscriptionEvents c !! t1 = Some p →
              SubscriptionEvents c !! t2 = Some p → t1 = t2).
Proof.
  intros Hb. pose proof (built_registry_ok c σ Hb) as Hok.
  split; [exact Hok|]. intros t1 t2 p. by apply (registry_ok_injective _ σ).
Qed.

Lemma createEvent_channels_apart (t : string) (σ : Store) :
  channels_apart σ → channels_apart (createEvent t σ).2.
Proof.
  intros [Hin Hap]. pose proof (createEvent_fresh t σ) as Hc.
  destruct (createEvent t σ) as [event σ'].
  destruct Hc as (Hfree & Hev & Hch). cbn [snd].
  split.
  - intros p ev. rewrite Hev, Hch.
    destruct (decide (event = p)) as [<-|Hne].
    + rewrite lookup_insert_eq. intros [= <-]. cbn. lia.
    + rewrite lookup_insert_ne by done. intros Hp.
      destruct (Hin p ev Hp) as (? & ? & ?). lia.
  - intros p q ev1 ev2 Hpq. rewrite Hev.
    destruct (decide (event = p)) as [<-|Hp]; destruct (decide (event = q)) as [<-|Hq];
      try done.
    + rewrite lookup_insert_eq, lookup_insert_ne by done. intros [= <-] H2.
      destruct (Hin q ev2 H2) as (? & ? & ?). cbn. lia.
    + rewrite lookup_insert_eq, lookup_insert_ne by done. intros H1 [= <-].
      destruct (Hin p ev1 H1) as (? & ? & ?). cbn. lia.
    + rewrite !lookup_insert_ne by done. by apply Hap.
Qed.

Lemma makeSubEvents_channels_apart (eventsIt : list string) :
  ∀ m σ, channels_apart σ → channels_apart (makeSubEvents eventsIt m σ).2.
Proof.
  induction eventsIt as [|item rest IH]; intros m σ Hap; cbn [makeSubEvents]; [done|].
  pose proof (createEvent_channels_apart item σ Hap) as Hc.
  destruct (createEvent item σ) as [event σ']. by apply IH.
Qed.

Lemma subscribe_channels_apart (c : Client) (σ : Store) (event : option loc)
      (envs : list Cycle) :
  channels_apart σ → channels_apart (subscribe c σ event envs).1.1.
Proof.
  intros [Hin Hap]. unfold subscribe.
  destruct event as [p|]; [|done].
  destruct (events σ !! p) as [ev|] eqn:Hp; [|done].
  pose proof (loop_keeps_identity c envs ev) as Hid.
  destruct (loop c ev envs) as [[ev' tr] st]. cbn [fst snd] in *.
  destruct Hid as (_ & _ & Hre & Hun).
  unfold put_event. split; cbn [events chans].
  - intros q ev0. destruct (decide (p = q)) as [<-|Hne].
    + rewrite lookup_insert_eq. intros [= <-]. rewrite Hre, Hun. by apply (Hin p).
    + rewrite lookup_insert_ne by done. apply Hin.
  - intros q1 q2 ev1 ev2 Hq.
    destruct (decide (p = q1)) as [<-|H1]; destruct (decide (p = q2)) as [<-|H2];
      try done.
    + rewrite lookup_insert_eq, lookup_insert_ne by done. intros [= <-] Hev2.
      rewrite Hre, Hun. by apply (Hap p q2).
    + rewrite lookup_insert_eq, lookup_insert_ne by done. intros Hev1 [= <-].
      rewrite Hre, Hun. by apply (Hap q1 p).
    + rewrite !lookup_insert_ne by done. by apply Hap.
Qed.

Lemma built_channels_apart (c : Client) (σ : Store) :
  built c σ → channels_apart σ.
Proof.
  induction 1 as [client endpoint h eventsIt | t c σ Hb IH | c σ event envs Hb IH].
  - unfold NewClientWith.
    assert (H0 : channels_apart empty_store) by (split; intros *; by rewrite ?lookup_empty).
    pose proof (makeSubEvents_channels_apart eventsIt ∅ empty_store H0) as Hm.
    by destruct (makeSubEvents eventsIt ∅ empty_store) as [m' σ'].
  - unfold getEvent. destruct (SubscriptionEvents c !! t); [done|].
    pose proof (createEvent_channels_apart t σ IH) as Hc.
    by destruct (createEvent t σ) as [event σ'].
  - by apply subscribe_channels_apart.
Qed.

(** X13: in every state reached from an empty store, no two events
    share a channel and the two channels of an event differ. So the
    events of two different type names of the registry have different
    delivery channels and different unsubscribe channels: without a
    hub, the deliveries of two subscriptions never mix, and an
    unsubscribe request reaches one engine only. *)
Theorem built_channels (c : Client) (σ : Store) :
  built c σ →
  (∀ p ev, events σ !! p = Some ev → Response ev ≠ Unsubscribe ev) ∧
  (∀ t1 t2 p1 p2 ev1 ev2,
     t1 ≠ t2 →
     SubscriptionEvents c !! t1 = Some p1 → SubscriptionEvents c !! t2 = Some p2 →
     events σ !! p1 = Some ev1 → events σ !! p2 = Some ev2 →
     Response ev1 ≠ Response ev2 ∧ Unsubscribe ev1 ≠ Unsubscribe ev2 ∧
     Response ev1 ≠ Unsubscribe ev2 ∧ Unsubscribe ev1 ≠ Response ev2).
Proof.
  intros Hb.
  destruct (built_channels_apart c σ Hb) as [Hin Hap].
  pose proof (built_registry_ok c σ Hb) as Hreg.
  split; [intros p ev Hp; by destruct (Hin p ev Hp) as (_ & _ & ?)|].
  intros t1 t2 p1 p2 ev1 ev2 Hne Ht1 Ht2 Hp1 Hp2.
  assert (Hp : p1 ≠ p2).
  { intros <-. apply Hne. exact (registry_ok_injective _ σ t1 t2 p1 Hreg Ht1 Ht2). }
  destruct (Hap p1 p2 ev1 ev2 Hp Hp1 Hp2) as (? & ? & ? & ?). done.
Qed.

(** ** The facade, seen by its caller *)


Lemma request_payload_posts (query : string) (variables : Value) :
  posts (request_payload query variables).2 = [].
Proof.
  unfold request_payload.
  destruct (is_empty_string variables); [done|]. by destruct (Marshal _).
Qed.

Lemma makeHttpRequest_posts (c : Client) (query : string) (variables : Value) (http : Http) :
  posts (makeHttpRequest c query variables http).2 =
    match http with
    | NewRequestFails _ => []
    | _ => [(Endpoint c, "application/json", (request_payload query variables).1)]
    end.
Proof.
  unfold makeHttpRequest.
  pose proof (request_payload_posts query variables) as Hp.
  destruct (request_payload query variables) as [payload tr]. cbn [fst snd] in *.
  unfold posts in *.
  destruct http; cbn [snd]; rewrite ?omap_app, ?Hp; done.
Qed.

(** What [getResponse] does beyond [makeHttpRequest] is a log line at
    most: it sends no further request. *)
Lemma getResponse_posts (c : Client) (query : string) (variables : Value)
      (ch : option Chan) (http : Http) :
  posts (getResponse c query variables ch http).2 =
    posts (makeHttpRequest c query variables http).2.
Proof.
  unfold getResponse.
  destruct (makeHttpRequest c query variables http) as [[[body [err|]]| | |] tr];
    cbn [snd]; try done.
  - by destruct (send_if_chan ch None).
  - destruct (Decode (removeFromJsonString body)) as [ds|err2].
    + destruct ch as [ch0|]; [|done].
      destruct (chan_send ch0 (Some ds)) as [ch1| | |]; try done.
      by destruct (chan_close ch1).
    + destruct (send_if_chan ch None); cbn [snd]; try done.
      unfold posts. rewrite omap_app. cbn. by rewrite app_nil_r.
Qed.



Lemma Marshal_Payload (query : string) (v : Value) :
  Marshal (VStruct [("query", VString query); ("variables", v)]) =
    match Marshal v with
    | Some j => Some (JObject [("query", JString query); ("variables", j)])
    | None => None
    end.
Proof. cbn. by destruct (Marshal v). Qed.

Lemma Marshal_payload_None (query : string) (variables : Value) :
  Marshal variables = None →
  request_payload query variables = (None, [HLog unsupported_type]).
Proof.
  intros H. unfold request_payload.
  destruct (is_empty_string variables) eqn:He.
  - apply is_empty_string_spec in He. by subst.
  - by rewrite Marshal_Payload, H.
Qed.

Lemma Marshal_payload_Some (query : string) (fields : list (string * Value))
      (js : list (string * json)) :
  Marshal (VStruct fields) = Some (JObject js) →
  request_payload query (VStruct fields) = (query_with query js, []).
Proof.
  intros H. unfold request_payload. cbn [is_empty_string].
  by rewrite Marshal_Payload, H.
Qed.

(** X16: an error of [json.Marshal] does not stop the request. When
    the variables cannot be encoded the error is logged, and the
    request is posted all the same, with an empty body; on a response
    [makeHttpRequest] returns it with a nil error, as for any other
    request. *)
Theorem marshal_error_is_only_logged (c : Client) (query : string) (variables : Value)
        (http : Http) :
  Marshal variables = None →
  let '(out, tr) := makeHttpRequest c query variables http in
  hlogs tr = unsupported_type :: match http with
                                 | DoFails e | ReadAllFails e => [e]
                                 | _ => []
                                 end ∧
  posts tr = one_post c None http ∧
  (∀ body, http = Responds body → out = Done (body, None)).
Proof.
  intros H. unfold makeHttpRequest. rewrite (Marshal_payload_None query _ H).
  destruct http; cbn; repeat split; try done. by intros ? [= ->].
Qed.

Lemma getUniversal_posts (c : Client) (query : string) (variables : Value) (http : Http) :
  posts (getUniversal c query variables http).2 =
    one_post c (request_payload query variables).1 http.
Proof.
  unfold getUniversal. rewrite getResponse_posts, makeHttpRequest_posts.
  by destruct http.
Qed.

(** X17: the wire format of the API. For all arguments, the empty
    string included, the methods without arguments post the query
    document alone, and the methods with string and integer arguments
    post the query document and a "variables" object with their json
    tags in the order of the struct; none of them can fail to encode. *)
Theorem api_requests (c : Client) (http : Http) :
  posts (GetDaemonStatus c http).2 = one_post c (query_only DaemonStatusQuery) http ∧
  posts (GetDaemonVersion c http).2 = one_post c (query_only DaemonVersionQuery) http ∧
  posts (GetSyncStatus c http).2 = one_post c (query_only GetSyncStatusQuery) http ∧
  posts (GetWallets c http).2 = one_post c (query_only GetWalletsQuery) http ∧
  posts (GetCurrentSnarkWorker c http).2 =
    one_post c (query_only GetCurrentSnarkWorkerQuery) http ∧
  posts ((GetDaemonStatusCh c).2 http).2 = one_post c (query_only DaemonStatusQuery) http ∧
  (∀ pk, posts (GetWallet c pk http).2 =
     one_post c (query_with GetWalletQuery [("publicKey", JString pk)]) http) ∧
  (∀ pk password, posts (UnlockWallet c pk password http).2 =
     one_post c (query_with UnlockWalletQuery
                   [("publicKey", JString pk); ("password", JString password)]) http) ∧
  (∀ password, posts (CreateWallet c password http).2 =
     one_post c (query_with CreateWalletQuery [("password", JString password)]) http) ∧
  (∀ from to amount fee memo, posts (SendPayment c from to amount fee memo http).2 =
     one_post c (query_with SendPaymentQuery
                   [("from", JString from); ("to", JString to);
                    ("amount", JNumber amount); ("fee", JNumber fee);
                    ("memo", JString memo)]) http) ∧
  (∀ pk, posts (GetPooledPayments c pk http).2 =
     one_post c (query_with GetPooledPaymentsQuery [("publicKey", JString pk)]) http) ∧
  (∀ paymentId, posts (GetTransactionStatus c paymentId http).2 =
     one_post c (query_with GetTransactionStatusQuery
                   [("paymentId", JString paymentId)]) http).
Proof.
  unfold GetDaemonStatus, GetDaemonVersion, GetSyncStatus, GetWallets,
    GetCurrentSnarkWorker, GetDaemonStatusCh, GetWallet, UnlockWallet, CreateWallet,
    SendPayment, GetPooledPayments, GetTransactionStatus.
  repeat split; intros;
    try (rewrite getUniversal_posts; reflexivity).
  unfold getUniversalCh. cbn [snd].
  rewrite getResponse_posts, makeHttpRequest_posts. by destruct http.
Qed.

(** X18: [SetSnarkWorker] takes any value as the worker's key. A key
    that encodes to [j] is posted as "worker_pk": [j] beside the fee;
    nil, the way to disable the worker, is posted as null. A key that
    [json.Marshal] refuses makes the whole body empty: the request is
    posted without query and without variables. *)
Theorem SetSnarkWorker_requests (c : Client) (workerPk : Value) (fee : string)
        (http : Http) :
  (∀ j, Marshal workerPk = Some j →
     posts (SetSnarkWorker c workerPk fee http).2 =
       one_post c (query_with SetSnarkWorkerQuery
                     [("worker_pk", j); ("fee", JString fee)]) http) ∧
  (workerPk = VNil →
     posts (SetSnarkWorker c workerPk fee http).2 =
       one_post c (query_with SetSnarkWorkerQuery
                     [("worker_pk", JNull); ("fee", JString fee)]) http) ∧
  (Marshal workerPk = None →
     posts (SetSnarkWorker c workerPk fee http).2 = one_post c None http).
Proof.
  unfold SetSnarkWorker.
  assert (Hsome : ∀ j, Marshal workerPk = Some j →
            Marshal (VStruct [("worker_pk", workerPk); ("fee", VString fee)]) =
              Some (JObject [("worker_pk", j); ("fee", JString fee)])).
  { intros j Hj. cbn. by rewrite Hj. }
  split; [|split].
  - intros j Hj. rewrite getUniversal_posts.
    by rewrite (Marshal_payload_Some _ _ _ (Hsome j Hj)).
  - intros ->. rewrite getUniversal_posts.
    by rewrite (Marshal_payload_Some _ _ _ (Hsome JNull eq_refl)).
  - intros Hn. rewrite getUniversal_posts.
    rewrite Marshal_payload_None; [done|]. cbn. by rewrite Hn.
Qed.

(** X19: on a response that does not decode, the goroutine of
    [getUniversalCh] puts nil on the channel and leaves the channel
    open; the channel is closed exactly when the response decodes. A
    receiver that takes one value is served in both cases; one that
    waits for the channel to be closed is served only on success. *)
Theorem getUniversalCh_closes_on_success_only (c : Client) (query : string)
        (variables : Value) (body : string) :
  ∃ r ch',
    ((getUniversalCh c query variables).2 (Responds body)).1 = Done r ∧
    channel r = Some ch' ∧ buf ch' = [result r] ∧
    (closed ch' = true ↔ ∃ ds, Decode (removeFromJsonString body) = inl ds) ∧
    (∀ err, Decode (removeFromJsonString body) = inr err →
       result r = None ∧ closed ch' = false).
Proof.
  unfold getUniversalCh, getResponse, makeHttpRequest.
  destruct (request_payload query variables) as [payload tr0]. cbn [fst snd].
  destruct (Decode (removeFromJsonString body)) as [ds|err]; cbn.
  - eexists _, _. split; [done|]. split; [done|]. split; [done|]. split.
    + split; [by eauto | done].
    + done.
  - eexists _, _. split; [done|]. split; [done|]. split; [done|]. split.
    + split; [done | by intros [? ?]].
    + done.
Qed.


End Client.

Arguments cap {_} _.
Arguments buf {_} _.
Arguments closed {_} _.
Arguments result {_} _.
Arguments error {_} _.
Arguments channel {_} _.

(** * The properties at work *)

(** ** Scenarios *)

(** One cycle of an engine for "NewBlock" against an endpoint that
    returns one frame: one [ResponseData] of type "NewBlock" on the
    event's channel, and the counter at 1. *)
Example one_cycle_NewBlock :
  let '(c, σ, tr, st) :=
    SubscribeForNewBlocks "subscription { newBlock }" "" "" int_wrap
                          a_client empty_store [a_good_cycle] in
  deliveries tr =
    [(0%nat, {| Host := "http://localhost:8304/graphql"; rd_Type := "NewBlock";
                Data := a_frame |})] ∧
  (Count <$> (events σ !! 1%positive)) = Some 1 ∧
  SubscriptionEvents c !! "NewBlock" = Some 1%positive ∧
  st = Looping.
Proof. by vm_compute. Qed.

(** With a hub the delivery goes to the hub's channel. *)
Example one_cycle_to_the_hub :
  deliveries (iteration int_wrap a_hub_client an_event a_good_cycle).1.2 =
    [(7%nat, {| Host := "http://localhost:8304/graphql"; rd_Type := "NewBlock";
                Data := a_frame |})].
Proof. reflexivity. Qed.

(** A delivery, then an unsubscribe: the log of the whole run. *)
Example run_then_unsubscribe :
  logs (subscribe int_wrap a_client
          {| events := {[ 1%positive := an_event ]}; chans := 2 |}
          (Some 1%positive) [a_good_cycle; an_unsubscribe; a_good_cycle]).1.2 =
    ["connecting to ws://localhost:8304/graphql";
     "Subscription Type: NewBlock";
     "Receive type: data";
     "http://localhost:8304/graphql unsubscribed from NewBlock";
     "Exit Subscribtion:  NewBlock"].
Proof. by vm_compute. Qed.

(** The counter of Go's [int] at its last value turns negative. *)
Example int_wrap_at_max : int_wrap (9223372036854775807 + 1) = -9223372036854775808.
Proof. reflexivity. Qed.

(** A response that does not decode: nil is sent and the channel is
    left open. *)
Example decode_failure_leaves_channel_open :
  (getUniversalCh string a_strip a_Decode a_client "{ version }" (VString "")).2
    (Responds "") =
  (Done {| result := None; error := Some "EOF";
           channel := Some {| cap := 1; buf := [None]; closed := false |} |},
   [Post "http://localhost:8304/graphql" "application/json"
         (Some (JObject [("query", JString "{ version }")]));
    HLog "EOF"]).
Proof. reflexivity. Qed.

(** A nil [variables] is not the empty string: both fields are sent. *)
Example nil_variables_are_sent :
  (request_payload "{ version }" VNil).1 =
    Some (JObject [("query", JString "{ version }"); ("variables", JNull)]).
Proof. reflexivity. Qed.

(** What [json.Marshal] refuses leaves the request without a body. *)
Example unsupported_variables_empty_body :
  request_payload "{ version }" VChan = (None, [HLog "json: unsupported type"]).
Proof. reflexivity. Qed.

(** ** Where the specification's sentences fail *)

(** C1: a refused connection, with nothing else signalled: the engine
    logs the error and returns instead of pausing and looping. *)
Lemma refused_dial_ends_the_engine :
  ¬ survives_transport_failure int_wrap a_client an_event a_refused_dial.
Proof.
  intros H. destruct (H eq_refl eq_refl) as (ev' & tr & E).
  vm_compute in E. discriminate E.
Qed.


(** C3: both signals are up and the runtime picks the unsubscribe
    case: the engine logs and sends the acknowledgment. *)
Lemma race_taken_by_unsubscribe :
  ¬ cancellation_wins int_wrap a_client an_event a_race.
Proof.
  intros H. specialize (H eq_refl eq_refl).
  vm_compute in H. discriminate H.
Qed.

(** C4: the HTTP exchange fails: [log.Fatalln] ends the process, the
    goroutine never gets to the channel. *)
Lemma failed_exchange_sends_nothing :
  ¬ one_shot_future string a_strip a_Decode a_client
      "{ daemonStatus { numAccounts } }" (VString "") (DoFails "timeout").
Proof.
  intros [_ (r & E & _)]. vm_compute in E. discriminate E.
Qed.

(** ** Instances of the theorems *)

Lemma select_with_context_done_witness :
  ctx_done a_race = true ∧
  (unsubscribe_ready a_race = false →
     iteration int_wrap a_client an_event a_race = (an_event, [], Returned)) ∧
  (unsubscribe_ready a_race = true →
     iteration int_wrap a_client an_event a_race =
       if coin a_race then unsubscribe a_client an_event a_race
       else (an_event, [], Returned)) ∧
  (let '(ev', tr, st) := iteration int_wrap a_client an_event a_race in
   ev' = an_event ∧ deliveries tr = [] ∧ st ≠ Looping).
Proof.
  split; [reflexivity|].
  apply (select_with_context_done int_wrap a_client an_event a_race).
  reflexivity.
Defined.

Lemma unsubscribe_handshake_witness :
  loop int_wrap a_client an_event [a_good_cycle] =
    (set_Count (set_Subscribed an_event true) 1,
     (iteration int_wrap a_client an_event a_good_cycle).1.2, Looping) ∧
  branch an_unsubscribe = BUnsubscribe ∧
  ∃ tr st,
    loop int_wrap a_client an_event ([a_good_cycle] ++ an_unsubscribe :: [a_good_cycle]) =
      (set_Count (set_Subscribed an_event true) 1,
       (iteration int_wrap a_client an_event a_good_cycle).1.2 ++ tr, st) ∧
    deliveries tr = [] ∧ st ≠ Looping ∧
    (peer an_unsubscribe = Receives →
       tr = [UnsubscribeRecv (Unsubscribe (set_Count (set_Subscribed an_event true) 1));
             Log (Endpoint a_client +:+ " unsubscribed from "
                  +:+ ev_Type (set_Count (set_Subscribed an_event true) 1));
             UnsubscribeSend (Unsubscribe (set_Count (set_Subscribed an_event true) 1)) true]
       ∧ st = Returned).
Proof.
  split; [by vm_compute|]. split; [reflexivity|].
  apply (unsubscribe_handshake int_wrap a_client an_event
           (set_Count (set_Subscribed an_event true) 1) [a_good_cycle]
           (iteration int_wrap a_client an_event a_good_cycle).1.2
           an_unsubscribe [a_good_cycle]).
  - by vm_compute.
  - reflexivity.
Defined.

Lemma cycle_transport_errors_witness :
  (∃ ev' tr,
     iteration int_wrap a_client an_event a_failed_receive =
       (ev', tr ++ [Sleep (1 * Second)], Looping) ∧
     (∀ e, send_err a_failed_receive = Some e → Log ("websocket.JSON. " +:+ e) ∈ tr) ∧
     (∀ e, recv_err a_failed_receive = Some e → Log ("Error Receive " +:+ e) ∈ tr)) ∧
  (∃ tr,
     iteration int_wrap a_client an_event a_refused_dial =
       (set_Subscribed an_event true,
        tr ++ [Log ("dial: " +:+ "connection refused")], Returned) ∧
     Sleep (1 * Second) ∉ tr).
Proof.
  destruct (cycle_transport_errors int_wrap a_client an_event) as (Hgo & Hstop & _).
  split.
  - apply (Hgo a_failed_receive); reflexivity.
  - apply (Hstop a_refused_dial "connection refused"); reflexivity.
Defined.



Lemma getEvent_unknown_type_witness :
  "Mempool" ≠ "NewBlock" ∧ "Mempool" ≠ "SyncUpdate" ∧ "Mempool" ≠ "BlockConfirmation" ∧
  SubscriptionEvents a_client !! "Mempool" = None ∧
  ∃ event c' σ' ev,
    getEvent "q1" "q2" "q3" "Mempool" a_client empty_store = (event, c', σ') ∧
    events empty_store !! event = None ∧
    SubscriptionEvents c' = <[ "Mempool" := event]> (SubscriptionEvents a_client) ∧
    events σ' !! event = Some ev ∧
    ev_Type ev = "Mempool" ∧ Query ev = "" ∧ Count ev = 0 ∧ Subscribed ev = false ∧
    ∀ env rest, branch env = BDefault → dial_err env = None →
      JSONSend {| sdq_Type := "start"; Id := "1"; Payload := {| sq_Query := "" |} |}
        ∈ (subscribeFor "q1" "q2" "q3" int_wrap "Mempool" a_client empty_store
             (env :: rest)).1.2.
Proof.
  split; [discriminate|]. split; [discriminate|]. split; [discriminate|].
  split; [reflexivity|].
  apply (getEvent_unknown_type "q1" "q2" "q3" int_wrap "Mempool" a_client empty_store);
    [discriminate | discriminate | discriminate | reflexivity].
Defined.

Lemma makeHttpRequest_body_witness :
  request_payload "{ version }" (VString "") =
    (Some (JObject [("query", JString "{ version }")]), []) ∧
  request_payload "query ($publicKey: String) { wallet }"
                  (VStruct [("publicKey", VString "B62q")]) =
    (Some (JObject [("query", JString "query ($publicKey: String) { wallet }");
                    ("variables", JObject [("publicKey", JString "B62q")])]), []) ∧
  posts (makeHttpRequest a_client "{ version }" (VString "") (Responds "{}")).2 =
    [(Endpoint a_client, "application/json",
      (request_payload "{ version }" (VString "")).1)].
Proof.
  split; [|split].
  - apply (makeHttpRequest_body a_client "{ version }" (VString "")). reflexivity.
  - apply (makeHttpRequest_body a_client "query ($publicKey: String) { wallet }"
             (VStruct [("publicKey", VString "B62q")])).
    + discriminate.
    + reflexivity.
  - apply (makeHttpRequest_body a_client "{ version }" (VString "")). discriminate.
Defined.

Lemma getUniversalCh_one_shot_witness :
  (getUniversalCh string a_strip a_Decode a_client "{ version }" (VString "")).1 =
    {| cap := 1; buf := []; closed := false |} ∧
  ((getUniversalCh string a_strip a_Decode a_client "{ version }" (VString "")).2
     (Responds "{}")).1 =
    Done {| result := Some "{}"; error := None;
            channel := Some {| cap := 1; buf := [Some "{}"]; closed := true |} |}.
Proof.
  pose proof (getUniversalCh_one_shot string a_strip a_Decode a_client
                "{ version }" (VString "")) as H.
  destruct (getUniversalCh string a_strip a_Decode a_client "{ version }" (VString ""))
    as [ch goroutine].
  destruct H as (Hch & Hok & _). split; [exact Hch|].
  apply (Hok "{}" "{}"). reflexivity.
Defined.

(** ** Instances of the further properties *)

Lemma subscribe_url_without_http_witness :
  occurs "http" "localhost:8304/graphql" = false ∧
  subscribe_url "localhost:8304/graphql" = "localhost:8304/graphql".
Proof.
  split; [reflexivity|].
  apply (proj1 (subscribe_url_without_http "localhost:8304/graphql")). reflexivity.
Defined.

Lemma subscribe_url_scheme_only_witness :
  occurs "http" "://node.example.org/graphql" = false ∧
  subscribe_url ("http" +:+ "://node.example.org/graphql")
    = "ws" +:+ "://node.example.org/graphql" ∧
  subscribe_url ("http" +:+ "://node.example.org/graphql")
    = scheme_prefix_substitution ("http" +:+ "://node.example.org/graphql") ∧
  subscribe_url ("https" +:+ "://node.example.org/graphql")
    = "wss" +:+ "://node.example.org/graphql".
Proof.
  split; [reflexivity|].
  apply (subscribe_url_scheme_only "://node.example.org/graphql"). reflexivity.
Defined.


Lemma loop_pauses_witness :
  let '(_, tr, st) := loop int_wrap a_client an_event [a_good_cycle; a_refused_dial] in
  tally is_Sleep tr = length (deliveries tr) ∧
  (tally is_Dial tr ≤ S (tally is_Sleep tr))%nat ∧
  (st = Looping → tally is_Dial tr = tally is_Sleep tr).
Proof. exact (loop_pauses int_wrap a_client [a_good_cycle; a_refused_dial] an_event). Defined.




Lemma built_registry_witness :
  built "q1" "q2" "q3" int_wrap
    (NewClientWith "q1" "q2" "q3" {| Timeout := 5 * Second |}
       "http://localhost:8304/graphql" None ["NewBlock"; "SyncUpdate"] empty_store).1
    (NewClientWith "q1" "q2" "q3" {| Timeout := 5 * Second |}
       "http://localhost:8304/graphql" None ["NewBlock"; "SyncUpdate"] empty_store).2 ∧
  ∀ t1 t2 p,
    SubscriptionEvents (NewClientWith "q1" "q2" "q3" {| Timeout := 5 * Second |}
       "http://localhost:8304/graphql" None ["NewBlock"; "SyncUpdate"] empty_store).1 !! t1 = Some p →
    SubscriptionEvents (NewClientWith "q1" "q2" "q3" {| Timeout := 5 * Second |}
       "http://localhost:8304/graphql" None ["NewBlock"; "SyncUpdate"] empty_store).1 !! t2 = Some p →
    t1 = t2.
Proof.
  assert (H : built "q1" "q2" "q3" int_wrap
                (NewClientWith "q1" "q2" "q3" {| Timeout := 5 * Second |}
       "http://localhost:8304/graphql" None ["NewBlock"; "SyncUpdate"] empty_store).1
                (NewClientWith "q1" "q2" "q3" {| Timeout := 5 * Second |}
       "http://localhost:8304/graphql" None ["NewBlock"; "SyncUpdate"] empty_store).2)
    by apply built_NewClientWith.
  split; [exact H|].
  exact (proj2 (built_registry "q1" "q2" "q3" int_wrap _ _ H)).
Defined.

Lemma built_channels_witness :
  built "q1" "q2" "q3" int_wrap
    (NewClientWith "q1" "q2" "q3" {| Timeout := 5 * Second |}
       "http://localhost:8304/graphql" None ["NewBlock"; "SyncUpdate"] empty_store).1
    (NewClientWith "q1" "q2" "q3" {| Timeout := 5 * Second |}
       "http://localhost:8304/graphql" None ["NewBlock"; "SyncUpdate"] empty_store).2 ∧
  ∀ p ev,
    events (NewClientWith "q1" "q2" "q3" {| Timeout := 5 * Second |}
       "http://localhost:8304/graphql" None ["NewBlock"; "SyncUpdate"] empty_store).2 !! p = Some ev →
    Response ev ≠ Unsubscribe ev.
Proof.
  assert (H : built "q1" "q2" "q3" int_wrap
                (NewClientWith "q1" "q2" "q3" {| Timeout := 5 * Second |}
       "http://localhost:8304/graphql" None ["NewBlock"; "SyncUpdate"] empty_store).1
                (NewClientWith "q1" "q2" "q3" {| Timeout := 5 * Second |}
       "http://localhost:8304/graphql" None ["NewBlock"; "SyncUpdate"] empty_store).2)
    by apply built_NewClientWith.
  split; [exact H|].
  exact (proj1 (built_channels "q1" "q2" "q3" int_wrap _ _ H)).
Defined.


Lemma marshal_error_is_only_logged_witness :
  Marshal (VStruct [("worker_pk", VChan)]) = None ∧
  posts (makeHttpRequest a_client "{ version }" (VStruct [("worker_pk", VChan)])
                         (Responds "{}")).2
    = one_post a_client None (Responds "{}").
Proof.
  split; [reflexivity|].
  pose proof (marshal_error_is_only_logged a_client "{ version }"
                (VStruct [("worker_pk", VChan)]) (Responds "{}") eq_refl) as H.
  destruct (makeHttpRequest a_client "{ version }" (VStruct [("worker_pk", VChan)])
                            (Responds "{}")) as [out tr].
  exact (proj1 (proj2 H)).
Defined.

Lemma SetSnarkWorker_requests_witness :
  Marshal (VString "B62q") = Some (JString "B62q") ∧
  posts (SetSnarkWorker string a_strip a_Decode "mutation { setSnarkWorker }"
                        a_client (VString "B62q") "1" (Responds "{}")).2
    = one_post a_client
        (query_with "mutation { setSnarkWorker }"
                    [("worker_pk", JString "B62q"); ("fee", JString "1")])
        (Responds "{}").
Proof.
  split; [reflexivity|].
  apply (SetSnarkWorker_requests string a_strip a_Decode "mutation { setSnarkWorker }"
           a_client (VString "B62q") "1" (Responds "{}")).
  reflexivity.
Defined.

Lemma getUniversalCh_closes_on_success_only_witness :
  ∃ r ch',
    ((getUniversalCh string a_strip a_Decode a_client "{ version }" (VString "")).2
       (Responds "")).1 = Done r ∧
    channel r = Some ch' ∧ buf ch' = [result r] ∧
    (closed ch' = true ↔ ∃ ds, a_Decode (a_strip "") = inl ds) ∧
    (∀ err, a_Decode (a_strip "") = inr err → result r = None ∧ closed ch' = false).
Proof.
  exact (getUniversalCh_closes_on_success_only string a_strip a_Decode a_client
           "{ version }" (VString "") "").
Defined.


Lemma int_wrap_small (n : Z) : (0 ≤ n < 2)%Z → int_wrap (n + 1) = n + 1.
Proof.
  intros Hn. assert (Hc : n = 0 ∨ n = 1) by lia.
  destruct Hc as [-> | ->]; reflexivity.
Defined.

Lemma loop_Count_monotone_witness :
  (∀ n, (Count an_event ≤ n
         < Count an_event + Z.of_nat (length [a_good_cycle; a_failed_receive]))%Z →
        int_wrap (n + 1) = n + 1) ∧
  (Count an_event
   ≤ Count (loop int_wrap a_client an_event [a_good_cycle; a_failed_receive]).1.1
   ≤ Count an_event + Z.of_nat (length [a_good_cycle; a_failed_receive]))%Z.
Proof.
  assert (H : ∀ n, (Count an_event ≤ n
                    < Count an_event + Z.of_nat (length [a_good_cycle; a_failed_receive]))%Z →
                   int_wrap (n + 1) = n + 1)
    by (intros n Hn; apply int_wrap_small; simpl in Hn; lia).
  split; [exact H|].
  exact (loop_Count_monotone int_wrap a_client [a_good_cycle; a_failed_receive] an_event H).
Defined.

